(** * dbt-duckdb: the local environment
    (dbt/adapters/duckdb/environments/local.py)

    A shallow embedding of [DuckDBCursorWrapper], [DuckDBConnectionWrapper]
    and [LocalEnvironment].  The DuckDB engine, the base class [Environment]
    and the plugins are outside the file: every call that leaves it is
    answered by an oracle that sees the history of earlier calls, and is
    recorded in that history.  The methods are written in a state and
    exception monad over the environment object and the history.

    [threading.RLock] shows as the grain of a schedule: a section under the
    lock runs as one step, and so does the part of [handle] and of the
    wrapper's [close] that is outside it; the steps of the threads
    interleave (see [run]). *)

From Stdlib Require Import ZArith String Ascii List Lia.
From stdpp Require Import base option list gmap strings.

Open Scope string_scope.
Open Scope list_scope.
Open Scope Z_scope.

(** ** Python exceptions *)

Inductive ExcClass :=
| Exception
| RuntimeError
| AssertionError
| TypeError
| IndexError
| AttributeError
| Subclass (name : string) (base : ExcClass).

(** [isinstance(e, RuntimeError)], the test of [except RuntimeError]. *)
Fixpoint is_RuntimeError (c : ExcClass) : bool :=
  match c with
  | RuntimeError => true
  | Subclass _ base => is_RuntimeError base
  | _ => false
  end.

(** An exception object: its class and its text.  [str e] is the text
    [str(e)] gives; for the exceptions built in this file it is the
    constructor's argument. *)
Record PyExc := mkExc { exc_class : ExcClass; str : string }.

(** [dbt.exceptions.DbtRuntimeError(msg)]; dbt declares the class as a
    subclass of [RuntimeError]. *)
Definition DbtRuntimeError (msg : string) : PyExc :=
  mkExc (Subclass "DbtRuntimeError" RuntimeError) msg.

(** ** Data handed in by the caller *)

Definition Conn := nat.
Definition Cursor := nat.

Inductive DataFrame := Df (id : nat).

(** [utils.SourceConfig]: the attributes [load_source] reads, and the value
    of [table_name()]. *)
Record SourceConfig := {
  schema : option string;
  identifier : string;
  database : option string;
  meta : list (string * string);
  table_name : string
}.

(** [utils.TargetConfig]: [config.model.compiled_code] and the location a
    plugin may adapt. *)
Record TargetConfig := {
  compiled_code : string;
  location : option string
}.

(** A Python [dict] with string keys, in insertion order. *)
Fixpoint dict_get {V : Type} (k : string) (d : list (string * V)) : option V :=
  match d with
  | [] => None
  | (k', v) :: d' => if String.eqb k k' then Some v else dict_get k d'
  end.

Definition keys {V : Type} (d : list (string * V)) : list string := map fst d.

(** Modelled from the spec: [SourceConfig.get] is declared in utils, which
    is outside this file; it reads the metadata with a default. *)
Definition SourceConfig_get (sc : SourceConfig) (key default : string) : string :=
  match dict_get key (meta sc) with
  | Some v => v
  | None => default
  end.

(** Truth value of an optional string: [None] and [''] are false. *)
Definition truthy (o : option string) : bool :=
  match o with
  | Some s => negb (String.eqb s EmptyString)
  | None => false
  end.

(** The [{x}] of an f-string. *)
Definition fmt (o : option string) : string :=
  match o with
  | Some s => s
  | None => "None"
  end.

(** [s.replace(".", "_")] *)
Fixpoint replace_dots (s : string) : string :=
  match s with
  | EmptyString => EmptyString
  | String c s' =>
      String (if Ascii.eqb c "."%char then "_"%char else c) (replace_dots s')
  end.

(** ** Calls that leave the file, and their history *)

(** What [cursor.execute] returns: the rows [fetchone] reads from. *)
Definition ExecResult := list (list Z).

Inductive EngineCall :=
| initialize_db
| conn_cursor (conn : Conn)
| initialize_cursor (cursor : Cursor) (registered_df : gmap string DataFrame)
| conn_close (conn : Conn)
| cursor_close (cursor : Cursor)
| cursor_execute (cursor : Cursor) (sql : string)
    (bindings : option (list (option string)))
| cursor_register (cursor : Cursor) (name : string) (df : DataFrame)
| cursor_sql (cursor : Cursor) (code : string).

(** The type of what an engine call returns when it does not raise. *)
Definition result_of (c : EngineCall) : Type :=
  match c with
  | initialize_db => Conn
  | conn_cursor _ => Cursor
  | initialize_cursor _ _ => Cursor
  | conn_close _ => unit
  | cursor_close _ => unit
  | cursor_execute _ _ _ => ExecResult
  | cursor_register _ _ _ => unit
  | cursor_sql _ _ => DataFrame
  end.

Inductive Call :=
| to_engine (c : EngineCall)
| plugin_load (plugin_name : string) (source_config : SourceConfig)
| plugin_store (plugin_name : string) (df : DataFrame)
    (target_config : TargetConfig) (cursor : Cursor).

Coercion to_engine : EngineCall >-> Call.

Record Event := { call : Call; returned : bool }.

(** Newest event first. *)
Definition History := list Event.

(** The engine and the base class: for a history and a call, an exception
    or the call's result. *)
Definition Engine := History -> forall c : EngineCall, PyExc + result_of c.

(** The plugin contract ([BasePlugin]). *)
Record Plugin := {
  load : History -> SourceConfig -> PyExc + option DataFrame;
  store : History -> DataFrame -> TargetConfig -> Cursor -> PyExc + unit;
  adapt_target_config : TargetConfig -> PyExc + TargetConfig;
  default_materialization : string;
  can_be_upstream_referenced : bool;
  create_source_config : TargetConfig -> PyExc + SourceConfig
}.

(** ** The objects of local.py *)

Record DuckDBCursorWrapper := { _cursor : Cursor }.

(** [cursor] is the attribute [_cursor], which the method [cursor()]
    returns; [_env] is the one environment of the state below. *)
Record DuckDBConnectionWrapper := { cursor : DuckDBCursorWrapper }.

Record DuckDBCredentials := {
  keep_open : bool;
  path : string;
  is_motherduck : bool
}.

Record LocalEnvironment := {
  conn : option Conn;
  _plugins : list (string * Plugin);
  handle_count : Z;
  _keep_open : bool;
  _REGISTERED_DF : gmap string DataFrame
}.

(** [LocalEnvironment.__init__]; [plugins] is what [initialize_plugins]
    returned. *)
Definition __init__ (credentials : DuckDBCredentials)
    (plugins : list (string * Plugin)) : LocalEnvironment :=
  {| conn := None;
     _plugins := plugins;
     handle_count := 0;
     _keep_open :=
       keep_open credentials || String.eqb (path credentials) ":memory:"
       || is_motherduck credentials;
     _REGISTERED_DF := ∅ |}.

(** ** The monad *)

Record St := { env : LocalEnvironment; trace : History }.

Inductive Outcome (A : Type) :=
| Return (a : A)
| Raise (e : PyExc).
Arguments Return {A} a.
Arguments Raise {A} e.

Definition M (A : Type) : Type := St -> Outcome A * St.

Global Instance M_ret : MRet M := fun A a s => (Return a, s).

Global Instance M_bind : MBind M := fun A B f m s =>
  match m s with
  | (Return a, s') => f a s'
  | (Raise e, s') => (Raise e, s')
  end.

Definition raise {A : Type} (e : PyExc) : M A := fun s => (Raise e, s).

Definition self : M LocalEnvironment := fun s => (Return (env s), s).

Definition set_self (f : LocalEnvironment -> LocalEnvironment) : M unit :=
  fun s => (Return tt, {| env := f (env s); trace := trace s |}).

(** The state after a call that returned ([ok]) or raised. *)
Definition logged (c : Call) (ok : bool) (s : St) : St :=
  {| env := env s; trace := {| call := c; returned := ok |} :: trace s |}.

(** A call that leaves the file: ask [reply], record the call. *)
Definition perform {A : Type} (c : Call) (reply : History -> PyExc + A) : M A :=
  fun s =>
    match reply (trace s) with
    | inr a => (Return a, logged c true s)
    | inl e => (Raise e, logged c false s)
    end.

(** [try: body except RuntimeError as e: handler(e)] *)
Definition try_except_RuntimeError {A : Type} (body : M A)
    (handler : PyExc -> M A) : M A :=
  fun s =>
    match body s with
    | (Return a, s') => (Return a, s')
    | (Raise e, s') =>
        if is_RuntimeError (exc_class e) then handler e s' else (Raise e, s')
    end.

Definition set_conn (c : option Conn) (e : LocalEnvironment) : LocalEnvironment :=
  {| conn := c;
     _plugins := _plugins e;
     handle_count := handle_count e;
     _keep_open := _keep_open e;
     _REGISTERED_DF := _REGISTERED_DF e |}.

Definition set_handle_count (n : Z) (e : LocalEnvironment) : LocalEnvironment :=
  {| conn := conn e;
     _plugins := _plugins e;
     handle_count := n;
     _keep_open := _keep_open e;
     _REGISTERED_DF := _REGISTERED_DF e |}.

Definition set_REGISTERED_DF (d : gmap string DataFrame) (e : LocalEnvironment)
    : LocalEnvironment :=
  {| conn := conn e;
     _plugins := _plugins e;
     handle_count := handle_count e;
     _keep_open := _keep_open e;
     _REGISTERED_DF := d |}.

(** A value or an exception computed without leaving a trace. *)
Definition lift {A : Type} (r : PyExc + A) : M A :=
  match r with
  | inr a => mret a
  | inl e => raise e
  end.

(** ** Text built by the methods *)

Definition nl : string := String (ascii_of_nat 10) EmptyString.

Definition indent : string := "                ".

(** The triple-quoted query of [load_source], line by line. *)
Definition catalog_query : string :=
  "SELECT COUNT(1)" +:+ nl +:+
  indent +:+ "FROM system.information_schema.tables" +:+ nl +:+
  indent +:+ "WHERE table_schema = ?" +:+ nl +:+
  indent +:+ "AND table_name = ?" +:+ nl +:+
  indent.

(** The exception of an unknown plugin name. *)
Definition plugin_not_found (plugin_name : string)
    (plugins : list (string * Plugin)) : PyExc :=
  mkExc Exception
    ("Plugin " +:+ plugin_name +:+ " not found; known plugins are: "
     +:+ String.concat "," (keys plugins)).

(** The exception of save mode [error_if_exists] on an existing relation. *)
Definition source_already_exists (source_config : SourceConfig) : PyExc :=
  mkExc Exception ("Source " +:+ table_name source_config +:+ " already exists!").

(** What a failed [assert] raises. *)
Definition assertion_failed : PyExc := mkExc AssertionError EmptyString.

(** ** The methods *)

Section Local.

Variable engine : Engine.

Definition engine_call (c : EngineCall) : M (result_of c) :=
  perform c (fun h => engine h c).

(** *** DuckDBCursorWrapper *)

Definition DuckDBCursorWrapper_execute (w : DuckDBCursorWrapper) (sql : string)
    (bindings : option (list (option string))) : M ExecResult :=
  try_except_RuntimeError
    (match bindings with
     | None => engine_call (cursor_execute (_cursor w) sql None)
     | Some b => engine_call (cursor_execute (_cursor w) sql (Some b))
     end)
    (fun e => raise (DbtRuntimeError (str e))).

(** [__getattr__] forwards the other methods to the wrapped cursor. *)
Definition DuckDBCursorWrapper_close (w : DuckDBCursorWrapper) : M unit :=
  engine_call (cursor_close (_cursor w)).

Definition DuckDBCursorWrapper_register (w : DuckDBCursorWrapper)
    (name : string) (df : DataFrame) : M unit :=
  engine_call (cursor_register (_cursor w) name df).

Definition DuckDBCursorWrapper_sql (w : DuckDBCursorWrapper) (code : string)
    : M DataFrame :=
  engine_call (cursor_sql (_cursor w) code).

(** [r.fetchone()[0]] *)
Definition fetchone_0 (r : ExecResult) : M Z :=
  match r with
  | [] => raise (mkExc TypeError "'NoneType' object is not subscriptable")
  | [] :: _ => raise (mkExc IndexError "tuple index out of range")
  | (v :: _) :: _ => mret v
  end.

(** *** LocalEnvironment *)

Definition close : M unit :=
  e ← self;
  match conn e with
  | Some c =>
      engine_call (conn_close c);;
      set_self (set_conn None)
  | None => mret tt
  end.

Definition notify_closed : M unit :=
  set_self (fun e => set_handle_count (handle_count e - 1) e);;
  e ← self;
  if (handle_count e =? 0) && negb (_keep_open e) then close else mret tt.

(** [handle], lines 63-66: the section under the lock. *)
Definition handle_locked : M unit :=
  e ← self;
  match conn e with
  | None =>
      c ← engine_call initialize_db;
      set_self (set_conn (Some c))
  | Some _ => mret tt
  end;;
  set_self (fun e => set_handle_count (handle_count e + 1) e).

(** [handle], lines 68-71: the cursor and its wrapper, outside the lock. *)
Definition handle_cursor : M DuckDBConnectionWrapper :=
  e ← self;
  raw ← match conn e with
        | Some c => engine_call (conn_cursor c)
        | None =>
            raise (mkExc AttributeError
                     "'NoneType' object has no attribute 'cursor'")
        end;
  cur ← engine_call (initialize_cursor raw (_REGISTERED_DF e));
  mret {| cursor := {| _cursor := cur |} |}.

Definition handle : M DuckDBConnectionWrapper :=
  handle_locked;;
  handle_cursor.

(** *** DuckDBConnectionWrapper *)

Definition DuckDBConnectionWrapper_close (w : DuckDBConnectionWrapper) : M unit :=
  DuckDBCursorWrapper_close (cursor w);;
  notify_closed.

(** *** LocalEnvironment, continued *)

Definition load_source (plugin_name : string) (source_config : SourceConfig)
    : M unit :=
  e ← self;
  match dict_get plugin_name (_plugins e) with
  | None => raise (plugin_not_found plugin_name (_plugins e))
  | Some plugin =>
      h ← handle;
      let cur := cursor h in
      (if truthy (schema source_config)
       then
         DuckDBCursorWrapper_execute cur
           ("CREATE SCHEMA IF NOT EXISTS " +:+ fmt (schema source_config)) None;;
         mret tt
       else mret tt);;
      let save_mode := SourceConfig_get source_config "save_mode" "overwrite" in
      let rest : M unit :=
        df ← perform (plugin_load plugin_name source_config)
               (fun hist => load plugin hist source_config);
        match df with
        | None => raise assertion_failed
        | Some df =>
            let materialization :=
              match dict_get "materialization" (meta source_config) with
              | Some m => m
              | None => default_materialization plugin
              end in
            let source_table_name := table_name source_config in
            let df_name := replace_dots source_table_name +:+ "_df" in
            DuckDBCursorWrapper_register cur df_name df;;
            (if String.eqb materialization "view"
             then set_self (fun e =>
                    set_REGISTERED_DF (<[df_name := df]> (_REGISTERED_DF e)) e)
             else mret tt);;
            DuckDBCursorWrapper_execute cur
              ("CREATE OR REPLACE " +:+ materialization +:+ " "
               +:+ source_table_name +:+ " AS SELECT * FROM " +:+ df_name)
              None;;
            DuckDBCursorWrapper_close cur;;
            DuckDBConnectionWrapper_close h
        end in
      if String.eqb save_mode "ignore" || String.eqb save_mode "error_if_exists"
      then
        let params := [schema source_config; Some (identifier source_config)] in
        let q := catalog_query in
        let '(q, params) :=
          if truthy (database source_config)
          then (q +:+ "AND table_catalog = ?",
                params ++ [database source_config])
          else (q, params) in
        r ← DuckDBCursorWrapper_execute cur q (Some params);
        n ← fetchone_0 r;
        if negb (n =? 0)
        then
          if String.eqb save_mode "error_if_exists"
          then raise (source_already_exists source_config)
          else mret tt
        else rest
      else rest
  end.

Definition store_relation (plugin_name : string) (target_config : TargetConfig)
    : M unit :=
  e ← self;
  match dict_get plugin_name (_plugins e) with
  | None => raise (plugin_not_found plugin_name (_plugins e))
  | Some plugin =>
      target_config ← lift (adapt_target_config plugin target_config);
      h ← handle;
      let cur := cursor h in
      df ← DuckDBCursorWrapper_sql cur (compiled_code target_config);
      perform (plugin_store plugin_name df target_config (_cursor cur))
        (fun hist => store plugin hist df target_config (_cursor cur));;
      DuckDBCursorWrapper_close cur;;
      DuckDBConnectionWrapper_close h;;
      if can_be_upstream_referenced plugin
      then
        source_config ← lift (create_source_config plugin target_config);
        load_source plugin_name source_config
      else mret tt
  end.

(** *** The parts of [load_source]

    The three blocks of the method under names of their own, for the
    statements below; [load_source_parts] shows that the method is their
    composition. *)

(** Lines 89-93: the handle, its cursor, and the schema. *)
Definition acquire (source_config : SourceConfig) : M DuckDBConnectionWrapper :=
  h ← handle;
  (if truthy (schema source_config)
   then
     DuckDBCursorWrapper_execute (cursor h)
       ("CREATE SCHEMA IF NOT EXISTS " +:+ fmt (schema source_config)) None;;
     mret tt
   else mret tt);;
  mret h.

(** The statement and the bindings of lines 97-105. *)
Definition catalog_lookup (source_config : SourceConfig)
    : string * list (option string) :=
  let params := [schema source_config; Some (identifier source_config)] in
  if truthy (database source_config)
  then (catalog_query +:+ "AND table_catalog = ?",
        params ++ [database source_config])
  else (catalog_query, params).

(** Lines 97-106: whether the catalog query counts a relation. *)
Definition relation_exists (cur : DuckDBCursorWrapper)
    (source_config : SourceConfig) : M bool :=
  r ← DuckDBCursorWrapper_execute cur (catalog_lookup source_config).1
        (Some (catalog_lookup source_config).2);
  n ← fetchone_0 r;
  mret (negb (n =? 0)).

(** Lines 95-106: the existence check of the save modes [ignore] and
    [error_if_exists]; no check, and [False], for the other modes. *)
Definition check_existing (cur : DuckDBCursorWrapper)
    (source_config : SourceConfig) : M bool :=
  let save_mode := SourceConfig_get source_config "save_mode" "overwrite" in
  if String.eqb save_mode "ignore" || String.eqb save_mode "error_if_exists"
  then relation_exists cur source_config
  else mret false.

(** Lines 115-132: what follows a dataframe that is not [None]. *)
Definition materialize (plugin : Plugin) (source_config : SourceConfig)
    (h : DuckDBConnectionWrapper) (df : DataFrame) : M unit :=
  let materialization :=
    match dict_get "materialization" (meta source_config) with
    | Some m => m
    | None => default_materialization plugin
    end in
  let df_name := replace_dots (table_name source_config) +:+ "_df" in
  DuckDBCursorWrapper_register (cursor h) df_name df;;
  (if String.eqb materialization "view"
   then set_self (fun e =>
          set_REGISTERED_DF (<[df_name := df]> (_REGISTERED_DF e)) e)
   else mret tt);;
  DuckDBCursorWrapper_execute (cursor h)
    ("CREATE OR REPLACE " +:+ materialization +:+ " "
     +:+ table_name source_config +:+ " AS SELECT * FROM " +:+ df_name)
    None;;
  DuckDBCursorWrapper_close (cursor h);;
  DuckDBConnectionWrapper_close h.

(** Lines 112-132: the plugin's [load], the [assert], and the rest. *)
Definition load_step (plugin_name : string) (plugin : Plugin)
    (source_config : SourceConfig) (h : DuckDBConnectionWrapper) : M unit :=
  df ← perform (plugin_load plugin_name source_config)
         (fun hist => load plugin hist source_config);
  match df with
  | None => raise assertion_failed
  | Some df => materialize plugin source_config h df
  end.

(** Lines 148-156 of [store_relation]: export through the plugin and release
    the handle. *)
Definition export (plugin_name : string) (plugin : Plugin)
    (target_config : TargetConfig) : M unit :=
  h ← handle;
  df ← DuckDBCursorWrapper_sql (cursor h) (compiled_code target_config);
  perform (plugin_store plugin_name df target_config (_cursor (cursor h)))
    (fun hist => store plugin hist df target_config (_cursor (cursor h)));;
  DuckDBCursorWrapper_close (cursor h);;
  DuckDBConnectionWrapper_close h.

(** *** Threads that take handles and close them

    Thread [t] calls [handle] and later [close] on the wrapper it got.  Each
    call is two steps, one of them under the lock; a schedule lists the
    steps of all threads in the order they run. *)

Inductive Step :=
| lock_section (t : nat)
| make_cursor (t : nat)
| close_cursor (t : nat)
| notify (t : nat).

(** [ws] holds the wrapper of each thread that has one.  A thread that
    closes without a wrapper ends the run, as any exception does. *)
Definition step (st : Step) (ws : gmap nat DuckDBConnectionWrapper)
    : M (gmap nat DuckDBConnectionWrapper) :=
  match st with
  | lock_section _ =>
      handle_locked;;
      mret ws
  | make_cursor t =>
      w ← handle_cursor;
      mret (<[t := w]> ws)
  | close_cursor t =>
      match ws !! t with
      | Some w =>
          DuckDBCursorWrapper_close (cursor w);;
          mret ws
      | None => raise (mkExc AttributeError "no wrapper to close")
      end
  | notify _ =>
      notify_closed;;
      mret ws
  end.

Fixpoint run (sched : list Step) (ws : gmap nat DuckDBConnectionWrapper)
    : M (gmap nat DuckDBConnectionWrapper) :=
  match sched with
  | [] => mret ws
  | st :: sched' =>
      ws' ← step st ws;
      run sched' ws'
  end.

End Local.

(** The steps of [N] threads that call [handle], and of [N] threads that
    close their wrapper. *)
Definition handle_calls (N : nat) : list Step :=
  flat_map (fun t => [lock_section t; make_cursor t]) (seq 0 N).

Definition close_calls (N : nat) : list Step :=
  flat_map (fun t => [close_cursor t; notify t]) (seq 0 N).

Global Instance Step_eq_dec : EqDecision Step.
Proof. solve_decision. Defined.

Definition is_lock_section (st : Step) : bool :=
  match st with
  | lock_section _ => true
  | _ => false
  end.

Definition is_notify (st : Step) : bool :=
  match st with
  | notify _ => true
  | _ => false
  end.

(** A step of [handle], a step of [close]. *)
Definition opens (st : Step) : bool :=
  match st with
  | lock_section _ | make_cursor _ => true
  | _ => false
  end.

Definition closes (st : Step) : bool := negb (opens st).

Fixpoint count_steps (p : Step -> bool) (sched : list Step) : nat :=
  match sched with
  | [] => 0%nat
  | st :: sched' => ((if p st then 1 else 0) + count_steps p sched')%nat
  end.

(** With [open] handles out, no prefix of the schedule has more
    [notify_closed] than handles taken. *)
Fixpoint balanced (open : nat) (sched : list Step) : bool :=
  match sched with
  | [] => true
  | lock_section _ :: sched' => balanced (S open) sched'
  | notify _ :: sched' =>
      match open with
      | O => false
      | S open' => balanced open' sched'
      end
  | _ :: sched' => balanced open sched'
  end.

(** ** Reading a history *)

Fixpoint count_events (p : Call -> bool) (h : History) : nat :=
  match h with
  | [] => 0%nat
  | ev :: h' =>
      ((if returned ev && p (call ev) then 1 else 0) + count_events p h')%nat
  end.

Definition is_initialize_db (c : Call) : bool :=
  match c with
  | to_engine initialize_db => true
  | _ => false
  end.

Definition is_conn_close (c : Call) : bool :=
  match c with
  | to_engine (conn_close _) => true
  | _ => false
  end.

(** How often the shared handle was created, and how often it was closed. *)
Definition db_created (h : History) : nat := count_events is_initialize_db h.
Definition db_closed (h : History) : nat := count_events is_conn_close h.

(** The calls that write: the plugin's [load] and [store], [register], and
    the create-or-replace statement.  The [CREATE SCHEMA IF NOT EXISTS] that
    [load_source] may run before its existence check is not among them. *)
Definition is_write (c : Call) : bool :=
  match c with
  | plugin_load _ _ => true
  | plugin_store _ _ _ _ => true
  | to_engine (cursor_register _ _ _) => true
  | to_engine (cursor_execute _ sql _) => String.prefix "CREATE OR REPLACE " sql
  | _ => false
  end.

(** The calls that release: closing a cursor or the shared handle. *)
Definition is_release (c : Call) : bool :=
  match c with
  | to_engine (cursor_close _) => true
  | to_engine (conn_close _) => true
  | _ => false
  end.

(** An event that neither writes nor releases. *)
Definition quiet (ev : Event) : Prop :=
  is_write (call ev) = false ∧ is_release (call ev) = false.

(** [h'] is [h] and then only quiet events. *)
Definition quiet_since (h h' : History) : Prop :=
  ∃ new, h' = new ++ h ∧ Forall quiet new.

(** ** submit_python_job *)

Record AdapterResponse := { _message : string }.

(** [KeyError(key)], what [d[key]] raises for a missing key; its text is
    the [repr] of the key. *)
Definition KeyError (key : string) : PyExc :=
  mkExc (Subclass "KeyError" (Subclass "LookupError" Exception))
    ("'" +:+ key +:+ "'").

Section Job.

(** [query] is the engine's [cursor.query], which [__getattr__] forwards
    to; [run_python_job] is the method of the base class, given the
    cursor, the loader, the alias and the code.  Both are outside the
    file. *)
Variable query : Cursor -> string -> M DataFrame.
Variable run_python_job :
  DuckDBCursorWrapper -> (string -> M DataFrame) -> string -> string -> M unit.

Definition submit_python_job (handle : DuckDBConnectionWrapper)
    (parsed_model : list (string * string)) (compiled_code : string)
    : M AdapterResponse :=
  let con := cursor handle in
  let ldf := fun table_name =>
    query (_cursor con) ("select * from " +:+ table_name) in
  alias ← match dict_get "alias" parsed_model with
          | Some a => mret a
          | None => raise (KeyError "alias")
          end;
  run_python_job con ldf alias compiled_code;;
  mret {| _message := "OK" |}.

End Job.

(** ** Names for the statements about the methods *)

(** The event of a call that returned. *)
Definition ok (c : Call) : Event := {| call := c; returned := true |}.

(** The materialization, the binding name and the statement of
    [load_source], lines 115-129. *)
Definition materialization (plugin : Plugin) (source_config : SourceConfig)
    : string :=
  match dict_get "materialization" (meta source_config) with
  | Some m => m
  | None => default_materialization plugin
  end.

Definition df_name (source_config : SourceConfig) : string :=
  replace_dots (table_name source_config) +:+ "_df".

Definition create_statement (plugin : Plugin) (source_config : SourceConfig)
    : string :=
  "CREATE OR REPLACE " +:+ materialization plugin source_config +:+ " "
  +:+ table_name source_config +:+ " AS SELECT * FROM "
  +:+ df_name source_config.

(** How often the character [c] is in [s]. *)
Fixpoint count_char (c : ascii) (s : string) : nat :=
  match s with
  | EmptyString => 0%nat
  | String c' s' =>
      ((if Ascii.eqb c c' then 1 else 0) + count_char c s')%nat
  end.

(** While handles are out there is a shared handle. *)
Definition conn_while_counted (e : LocalEnvironment) : Prop :=
  0 < handle_count e → conn e ≠ None.

(** The registry and the keep-open flag are the same in [e'] as in [e], and
    every name bound in the cache of [e] is bound in the cache of [e']. *)
Definition settled (e e' : LocalEnvironment) : Prop :=
  _plugins e' = _plugins e
  ∧ _keep_open e' = _keep_open e
  ∧ dom (_REGISTERED_DF e) ⊆ dom (_REGISTERED_DF e').

(** [m] takes an environment to one that [R] relates to it, whether it
    returns or raises. *)
Definition stable {A : Type} (R : LocalEnvironment -> LocalEnvironment -> Prop)
    (m : M A) : Prop :=
  ∀ s, R (env s) (env (m s).2).

(** [e'] has at [f] what [e] has. *)
Definition agree {B : Type} (f : LocalEnvironment -> B)
    (e e' : LocalEnvironment) : Prop :=
  f e' = f e.

(** [I] goes from [e] over to [e']. *)
Definition keeps (I : LocalEnvironment -> Prop) (e e' : LocalEnvironment)
    : Prop :=
  I e → I e'.

(** [m] takes a state to one that [R] relates to it, whether it returns
    or raises. *)
Definition lasting {A : Type} (R : St -> St -> Prop) (m : M A) : Prop :=
  ∀ s, R s (m s).2.

(** From a state with the keep-open flag to [s']: the flag is on, the
    engine was not asked to close the shared handle, and a shared handle
    that was there is the same one. *)
Definition kept_open (s s' : St) : Prop :=
  _keep_open (env s) = true →
  _keep_open (env s') = true
  ∧ db_closed (trace s') = db_closed (trace s)
  ∧ (conn (env s) ≠ None → conn (env s') = conn (env s)).

(** By how much [m] moves [handle_count]: between [r.1] and [r.2] when it
    returns, between [x.1] and [x.2] when it raises. *)
Definition moves {A : Type} (m : M A) (r x : Z * Z) : Prop :=
  ∀ s,
    let d := handle_count (env (m s).2) - handle_count (env s) in
    match (m s).1 with
    | Return _ => r.1 ≤ d ≤ r.2
    | Raise _ => x.1 ≤ d ≤ x.2
    end.

(** ** A small world to run the methods in *)

Module Demo.

(** An engine on which every call returns; [execute] yields one row that
    holds [count], and cursors are numbered by the length of the history. *)
Definition engine (count : Z) : Engine := fun h c =>
  match c return PyExc + result_of c with
  | initialize_db => inr 0%nat
  | conn_cursor _ => inr (length h)
  | initialize_cursor cur _ => inr cur
  | conn_close _ => inr tt
  | cursor_close _ => inr tt
  | cursor_execute _ _ _ => inr [[count]]
  | cursor_register _ _ _ => inr tt
  | cursor_sql _ _ => inr (Df 0)
  end.

(** An engine whose [execute] raises [e]. *)
Definition failing_engine (e : PyExc) : Engine := fun h c =>
  match c return PyExc + result_of c with
  | cursor_execute _ _ _ => inl e
  | c => engine 0 h c
  end.

Definition source (save_mode : string) : SourceConfig :=
  {| schema := Some "main";
     identifier := "t1";
     database := None;
     meta := [("save_mode", save_mode)];
     table_name := "main.t1" |}.

Definition target : TargetConfig :=
  {| compiled_code := "select 1 as a"; location := None |}.

Definition plugin (upstream : bool) (df : option DataFrame) : Plugin :=
  {| load := fun _ _ => inr df;
     store := fun _ _ _ _ => inr tt;
     adapt_target_config := fun tc => inr tc;
     default_materialization := "table";
     can_be_upstream_referenced := upstream;
     create_source_config := fun _ => inr (source "overwrite") |}.

(** The registry with the one plugin [mem]. *)
Definition registry (upstream : bool) (df : option DataFrame)
    : list (string * Plugin) :=
  [("mem", plugin upstream df)].

Definition creds (keep : bool) : DuckDBCredentials :=
  {| keep_open := keep; path := "/tmp/dbt.duckdb"; is_motherduck := false |}.

(** A new environment and an empty history. *)
Definition fresh (keep : bool) (plugins : list (string * Plugin)) : St :=
  {| env := __init__ (creds keep) plugins; trace := [] |}.

End Demo.

(** More engines: one that raises [e] at the calls [p] picks. *)
Module World.

Definition failing_at (p : EngineCall -> bool) (e : PyExc) : Engine :=
  fun h c =>
    match p c with
    | true => inl e
    | false => Demo.engine 0 h c
    end.

Definition at_initialize_db (c : EngineCall) : bool :=
  match c with
  | initialize_db => true
  | _ => false
  end.

Definition at_initialize_cursor (c : EngineCall) : bool :=
  match c with
  | initialize_cursor _ _ => true
  | _ => false
  end.

Definition at_conn_close (c : EngineCall) : bool :=
  match c with
  | conn_close _ => true
  | _ => false
  end.

Definition at_cursor_sql (c : EngineCall) : bool :=
  match c with
  | cursor_sql _ _ => true
  | _ => false
  end.

Definition at_cursor_register (c : EngineCall) : bool :=
  match c with
  | cursor_register _ _ _ => true
  | _ => false
  end.

Definition at_select (c : EngineCall) : bool :=
  match c with
  | cursor_execute _ sql _ => String.prefix "SELECT" sql
  | _ => false
  end.

(** A source with the materialization [m] and no save mode. *)
Definition source (m : string) : SourceConfig :=
  {| schema := Some "main";
     identifier := "t1";
     database := Some "db";
     meta := [("materialization", m)];
     table_name := "db.main.t1" |}.

End World.

(** * Properties *)

(** ** The cursor wrapper *)

Section CursorWrapper.

Variable engine : Engine.

(** C5: when the wrapped cursor's [execute] raises a [RuntimeError] whose
    text is [m], the wrapper raises [DbtRuntimeError] with the text [m];
    when it returns, the wrapper returns the same result. *)
Theorem execute_normalizes_runtime_error (w : DuckDBCursorWrapper)
    (sql : string) (bindings : option (list (option string))) (s : St) :
  let c := cursor_execute (_cursor w) sql bindings in
  (∀ cls m, engine (trace s) c = inl (mkExc cls m) →
     is_RuntimeError cls = true →
     DuckDBCursorWrapper_execute engine w sql bindings s
     = (Raise (DbtRuntimeError m), logged c false s)
     ∧ str (DbtRuntimeError m) = m)
  ∧ (∀ r, engine (trace s) c = inr r →
     DuckDBCursorWrapper_execute engine w sql bindings s
     = (Return r, logged c true s)).
Proof.
  intros c; subst c; split.
  - intros cls m Hraise Hcls; split; [|reflexivity].
    unfold DuckDBCursorWrapper_execute, try_except_RuntimeError, engine_call,
      perform.
    destruct bindings; rewrite Hraise; simpl; rewrite Hcls; reflexivity.
  - intros r Hret.
    unfold DuckDBCursorWrapper_execute, try_except_RuntimeError, engine_call,
      perform.
    destruct bindings; rewrite Hret; reflexivity.
Qed.

(** C9: an exception of the wrapped [execute] that is not a [RuntimeError]
    leaves the wrapper as it is, the same object. *)
Theorem execute_propagates_other_errors (w : DuckDBCursorWrapper)
    (sql : string) (bindings : option (list (option string))) (s : St)
    (e : PyExc) :
  engine (trace s) (cursor_execute (_cursor w) sql bindings) = inl e →
  is_RuntimeError (exc_class e) = false →
  DuckDBCursorWrapper_execute engine w sql bindings s
  = (Raise e, logged (cursor_execute (_cursor w) sql bindings) false s).
Proof.
  intros Hraise Hcls.
  unfold DuckDBCursorWrapper_execute, try_except_RuntimeError, engine_call,
    perform.
  destruct bindings; rewrite Hraise; simpl; rewrite Hcls; reflexivity.
Qed.

End CursorWrapper.

(** ** Steps of the monad *)

Lemma bind_run {A B : Type} (m : M A) (f : A → M B) (s : St) :
  (m ≫= f) s
  = match m s with
    | (Return a, s') => f a s'
    | (Raise e, s') => (Raise e, s')
    end.
Proof. reflexivity. Qed.

Lemma bind_Return {A B : Type} (m : M A) (f : A → M B) (s s' : St) (a : A) :
  m s = (Return a, s') → (m ≫= f) s = f a s'.
Proof. intros H; rewrite bind_run, H; reflexivity. Qed.

Lemma bind_Raise {A B : Type} (m : M A) (f : A → M B) (s s' : St) (e : PyExc) :
  m s = (Raise e, s') → (m ≫= f) s = (Raise e, s').
Proof. intros H; rewrite bind_run, H; reflexivity. Qed.

Lemma bind_Return_inv {A B : Type} (m : M A) (f : A → M B) (s s2 : St) (b : B) :
  (m ≫= f) s = (Return b, s2) →
  ∃ a s1, m s = (Return a, s1) ∧ f a s1 = (Return b, s2).
Proof.
  rewrite bind_run; destruct (m s) as [[a|e] s1]; [eauto|discriminate].
Qed.

Lemma perform_Return {A : Type} (c : Call) (reply : History → PyExc + A)
    (s s1 : St) (a : A) :
  perform c reply s = (Return a, s1) →
  reply (trace s) = inr a ∧ s1 = logged c true s.
Proof.
  unfold perform; destruct (reply (trace s)) as [e|a']; [discriminate|].
  intros [= -> <-]; split; reflexivity.
Qed.

(** Unfold the binds at the head of a run, one after the other. *)
Ltac binds :=
  repeat (rewrite bind_run; unfold self, set_self, raise, mret, M_ret; simpl).

(** Case on the answer of the oracle at the head of a run; a run that has
    to return rules the exception out. *)
Ltac ask :=
  match goal with
  | |- context [match ?f ?h ?c with inl _ => _ | inr _ => _ end] =>
      destruct (f h c) as [?|?] eqn:?; try discriminate
  end.

Lemma dict_get_None {V : Type} (k : string) (d : list (string * V)) :
  dict_get k d = None ↔ k ∉ keys d.
Proof.
  induction d as [|[k' v] d IH]; simpl.
  - split; [intros _; apply not_elem_of_nil | reflexivity].
  - rewrite not_elem_of_cons.
    destruct (String.eqb_spec k k') as [->|Hne].
    + split; [discriminate | intros [Hk _]; congruence].
    + rewrite IH; tauto.
Qed.

(** ** The shared handle *)

Section Lifecycle.

Variable engine : Engine.

Lemma close_without_conn (s : St) :
  conn (env s) = None → close engine s = (Return tt, s).
Proof.
  intros Hconn; unfold close; rewrite bind_run; simpl.
  rewrite Hconn; reflexivity.
Qed.

Lemma close_Return (s s1 : St) :
  close engine s = (Return tt, s1) →
  conn (env s1) = None
  ∧ handle_count (env s1) = handle_count (env s)
  ∧ _keep_open (env s1) = _keep_open (env s)
  ∧ _plugins (env s1) = _plugins (env s)
  ∧ db_created (trace s1) = db_created (trace s)
  ∧ db_closed (trace s1)
    = (db_closed (trace s) + match conn (env s) with Some _ => 1 | None => 0 end)%nat.
Proof.
  unfold close; rewrite bind_run; simpl.
  destruct (conn (env s)) as [c|] eqn:Hconn.
  - rewrite bind_run; unfold engine_call, perform.
    destruct (engine (trace s) (conn_close c)) as [e|[]]; [discriminate|].
    intros [= <-]; simpl; repeat split; unfold db_closed; simpl; lia.
  - intros [= <-]; rewrite Hconn; repeat split; lia.
Qed.

(** C8: [close] without a shared handle does nothing; two calls in a row
    end as one call does, whatever the state; and after a call that
    returned, the handle is [None] and a further call changes nothing. *)
Theorem close_idempotent (s : St) :
  (conn (env s) = None → close engine s = (Return tt, s))
  ∧ (close engine;; close engine) s = close engine s
  ∧ (∀ s1, close engine s = (Return tt, s1) →
       conn (env s1) = None ∧ close engine s1 = (Return tt, s1)).
Proof.
  split; [apply close_without_conn|]; split.
  - rewrite bind_run.
    destruct (close engine s) as [[[]|e] s1] eqn:Hclose; [|reflexivity].
    apply close_without_conn; eapply close_Return; eassumption.
  - intros s1 Hclose; apply close_Return in Hclose as (Hconn & _).
    split; [assumption | apply close_without_conn; assumption].
Qed.

Lemma notify_closed_decrements (s : St) :
  handle_count (env (notify_closed engine s).2) = handle_count (env s) - 1.
Proof.
  unfold notify_closed; binds.
  destruct ((handle_count (env s) - 1 =? 0) && negb (_keep_open (env s)));
    [|reflexivity].
  unfold close; binds.
  destruct (conn (env s)) as [c|]; [|reflexivity].
  unfold engine_call, perform; binds.
  destruct (engine (trace s) (conn_close c)) as [e|[]]; reflexivity.
Qed.

Lemma notify_closed_Return (s s1 : St) :
  notify_closed engine s = (Return tt, s1) →
  handle_count (env s1) = handle_count (env s) - 1
  ∧ _keep_open (env s1) = _keep_open (env s)
  ∧ _plugins (env s1) = _plugins (env s)
  ∧ db_created (trace s1) = db_created (trace s)
  ∧ if (handle_count (env s) - 1 =? 0) && negb (_keep_open (env s))
    then conn (env s1) = None
         ∧ db_closed (trace s1)
           = (db_closed (trace s)
              + match conn (env s) with Some _ => 1 | None => 0 end)%nat
    else conn (env s1) = conn (env s)
         ∧ db_closed (trace s1) = db_closed (trace s).
Proof.
  unfold notify_closed; binds.
  destruct ((handle_count (env s) - 1 =? 0) && negb (_keep_open (env s))).
  - intros Hclose; apply close_Return in Hclose; simpl in Hclose.
    destruct Hclose as (? & ? & ? & ? & ? & ?); repeat split; assumption.
  - intros [= <-]; simpl; repeat split; reflexivity.
Qed.

Lemma handle_locked_Return (s s1 : St) :
  handle_locked engine s = (Return tt, s1) →
  handle_count (env s1) = handle_count (env s) + 1
  ∧ _keep_open (env s1) = _keep_open (env s)
  ∧ _plugins (env s1) = _plugins (env s)
  ∧ db_closed (trace s1) = db_closed (trace s)
  ∧ match conn (env s) with
    | Some c =>
        conn (env s1) = Some c ∧ db_created (trace s1) = db_created (trace s)
    | None =>
        conn (env s1) ≠ None
        ∧ db_created (trace s1) = S (db_created (trace s))
    end.
Proof.
  unfold handle_locked; binds.
  destruct (conn (env s)) as [c|] eqn:Hconn; binds;
    unfold engine_call, perform; binds; repeat (ask; binds);
    intros [= <-]; simpl; repeat split;
    try reflexivity; try assumption; discriminate.
Qed.

(** Making the cursor leaves the environment as it is, and asks the engine
    for nothing that creates or closes the shared handle. *)
Lemma handle_cursor_Return (s s1 : St) (w : DuckDBConnectionWrapper) :
  handle_cursor engine s = (Return w, s1) →
  env s1 = env s
  ∧ db_created (trace s1) = db_created (trace s)
  ∧ db_closed (trace s1) = db_closed (trace s)
  ∧ quiet_since (trace s) (trace s1).
Proof.
  unfold handle_cursor; binds.
  destruct (conn (env s)) as [c|]; [|discriminate].
  unfold engine_call, perform; binds; repeat (ask; binds).
  intros [= _ <-]; simpl; repeat split.
  eexists [_; _]; split; [reflexivity|]; repeat constructor.
Qed.

Lemma handle_Return (s s1 : St) (w : DuckDBConnectionWrapper) :
  handle engine s = (Return w, s1) →
  handle_count (env s1) = handle_count (env s) + 1
  ∧ _keep_open (env s1) = _keep_open (env s)
  ∧ _plugins (env s1) = _plugins (env s)
  ∧ db_closed (trace s1) = db_closed (trace s)
  ∧ match conn (env s) with
    | Some c =>
        conn (env s1) = Some c ∧ db_created (trace s1) = db_created (trace s)
    | None =>
        conn (env s1) ≠ None
        ∧ db_created (trace s1) = S (db_created (trace s))
    end.
Proof.
  unfold handle; intros H.
  apply bind_Return_inv in H as ([] & s' & Hl & Hc).
  apply handle_locked_Return in Hl as (H1 & H2 & H3 & H4 & H5).
  apply handle_cursor_Return in Hc as (He & Hcr & Hcl & _).
  rewrite He, Hcr, Hcl; repeat split; assumption.
Qed.

Lemma wrapper_close_Return (w : DuckDBConnectionWrapper) (s s1 : St) :
  DuckDBConnectionWrapper_close engine w s = (Return tt, s1) →
  handle_count (env s1) = handle_count (env s) - 1
  ∧ _keep_open (env s1) = _keep_open (env s)
  ∧ _plugins (env s1) = _plugins (env s)
  ∧ db_created (trace s1) = db_created (trace s)
  ∧ if (handle_count (env s) - 1 =? 0) && negb (_keep_open (env s))
    then conn (env s1) = None
         ∧ db_closed (trace s1)
           = (db_closed (trace s)
              + match conn (env s) with Some _ => 1 | None => 0 end)%nat
    else conn (env s1) = conn (env s)
         ∧ db_closed (trace s1) = db_closed (trace s).
Proof.
  unfold DuckDBConnectionWrapper_close, DuckDBCursorWrapper_close.
  rewrite bind_run; unfold engine_call at 1, perform.
  destruct (engine (trace s) (cursor_close _)) as [e|[]]; [discriminate|].
  intros Hn; apply notify_closed_Return in Hn; exact Hn.
Qed.

(** C10: [notify_closed] takes one from [handle_count] whatever its value,
    so does every [close] of a wrapper whose cursor closes, and closing the
    one outstanding wrapper twice ends with [handle_count] at -1. *)
Theorem double_close_goes_negative :
  (∀ s, handle_count (env (notify_closed engine s).2)
        = handle_count (env s) - 1)
  ∧ (∀ w s s1, DuckDBConnectionWrapper_close engine w s = (Return tt, s1) →
       handle_count (env s1) = handle_count (env s) - 1)
  ∧ (∀ w s s1 s2 s3,
       handle_count (env s) = 0 →
       handle engine s = (Return w, s1) →
       DuckDBConnectionWrapper_close engine w s1 = (Return tt, s2) →
       DuckDBConnectionWrapper_close engine w s2 = (Return tt, s3) →
       handle_count (env s3) = -1).
Proof.
  split; [exact notify_closed_decrements|]; split.
  - intros w s s1 H; apply wrapper_close_Return in H; tauto.
  - intros w s s1 s2 s3 H0 Hh H1 H2.
    apply handle_Return in Hh as (Hh & _).
    apply wrapper_close_Return in H1 as (H1 & _).
    apply wrapper_close_Return in H2 as (H2 & _).
    lia.
Qed.

(** *** Schedules *)

Lemma run_app (l1 l2 : list Step) (ws : gmap nat DuckDBConnectionWrapper)
    (s : St) :
  run engine (l1 ++ l2) ws s = (run engine l1 ws ≫= run engine l2) s.
Proof.
  revert ws s; induction l1 as [|st l1 IH]; intros ws s; simpl.
  - reflexivity.
  - rewrite !bind_run.
    destruct (step engine st ws s) as [[ws1|e] s1]; [apply IH | reflexivity].
Qed.

(** When a run returns, so does each of its prefixes. *)
Lemma run_prefix (k : nat) (sched : list Step)
    (ws ws' : gmap nat DuckDBConnectionWrapper) (s s' : St) :
  run engine sched ws s = (Return ws', s') →
  ∃ ws1 s1, run engine (take k sched) ws s = (Return ws1, s1).
Proof.
  rewrite <- (take_drop k sched) at 1; rewrite run_app, bind_run.
  destruct (run engine (take k sched) ws s) as [[ws1|e] s1];
    [eauto|discriminate].
Qed.

(** The two steps outside the lock leave the environment and the shared
    handle as they are. *)
Lemma step_outside_lock (st : Step) (ws ws1 : gmap nat DuckDBConnectionWrapper)
    (s s1 : St) :
  is_lock_section st = false → is_notify st = false →
  step engine st ws s = (Return ws1, s1) →
  env s1 = env s
  ∧ db_created (trace s1) = db_created (trace s)
  ∧ db_closed (trace s1) = db_closed (trace s).
Proof.
  destruct st as [t|t|t|t]; try discriminate; intros _ _ H; simpl in H.
  - apply bind_Return_inv in H as (w & s2 & Hc & H).
    injection H as _ <-.
    apply handle_cursor_Return in Hc as (? & ? & ? & _); auto.
  - destruct (ws !! t) as [w|]; [|discriminate].
    apply bind_Return_inv in H as ([] & s2 & Hc & H).
    injection H as _ <-.
    unfold DuckDBCursorWrapper_close, engine_call in Hc.
    apply perform_Return in Hc as (_ & ->); auto.
Qed.

Lemma run_opening (hs : list Step) (ws ws' : gmap nat DuckDBConnectionWrapper)
    (s s' : St) :
  Forall (λ st, opens st = true) hs →
  run engine hs ws s = (Return ws', s') →
  handle_count (env s')
  = handle_count (env s) + Z.of_nat (count_steps is_lock_section hs)
  ∧ _keep_open (env s') = _keep_open (env s)
  ∧ db_closed (trace s') = db_closed (trace s)
  ∧ match conn (env s) with
    | Some c =>
        conn (env s') = Some c ∧ db_created (trace s') = db_created (trace s)
    | None =>
        match count_steps is_lock_section hs with
        | O => conn (env s') = None
               ∧ db_created (trace s') = db_created (trace s)
        | S _ => conn (env s') ≠ None
                 ∧ db_created (trace s') = S (db_created (trace s))
        end
    end.
Proof.
  intros Hopens; revert ws s;
    induction Hopens as [|st hs Hst _ IH]; intros ws s; simpl.
  - intros [= _ <-]; repeat split; try lia.
    destruct (conn (env s)); split; reflexivity.
  - rewrite bind_run.
    destruct (step engine st ws s) as [[ws1|e] s1] eqn:Hstep; [|discriminate].
    intros Hrun; apply IH in Hrun as (Hc & Hk & Hcl & Hconn).
    destruct st as [t|t|t|t]; try discriminate Hst; simpl.
    + simpl in Hstep.
      apply bind_Return_inv in Hstep as ([] & s2 & Hl & Hstep).
      injection Hstep as _ ->.
      apply handle_locked_Return in Hl as (Hc1 & Hk1 & _ & Hcl1 & Hconn1).
      repeat split; try lia; try congruence.
      destruct (conn (env s)) as [c|].
      * destruct Hconn1 as [Hc' Hcr]; rewrite Hc' in Hconn.
        destruct Hconn; split; congruence.
      * destruct Hconn1 as [Hc' Hcr].
        destruct (conn (env s1)) as [c1|]; [|congruence].
        destruct Hconn; split; congruence.
    + apply step_outside_lock in Hstep as (He & Hcr1 & Hcl1);
        [|reflexivity|reflexivity].
      rewrite He, Hcr1, Hcl1 in *; repeat split; try lia; assumption.
Qed.

Lemma run_closing (cs : list Step) (ws ws' : gmap nat DuckDBConnectionWrapper)
    (s s' : St) :
  Forall (λ st, closes st = true) cs →
  run engine cs ws s = (Return ws', s') →
  Z.of_nat (count_steps is_notify cs) ≤ handle_count (env s) →
  (count_steps is_notify cs ≠ 0%nat → conn (env s) ≠ None) →
  handle_count (env s')
  = handle_count (env s) - Z.of_nat (count_steps is_notify cs)
  ∧ _keep_open (env s') = _keep_open (env s)
  ∧ db_created (trace s') = db_created (trace s)
  ∧ if (handle_count (env s) =? Z.of_nat (count_steps is_notify cs))
       && negb (_keep_open (env s)) && negb (handle_count (env s) =? 0)
    then conn (env s') = None ∧ db_closed (trace s') = S (db_closed (trace s))
    else conn (env s') = conn (env s)
         ∧ db_closed (trace s') = db_closed (trace s).
Proof.
  intros Hcloses; revert ws s;
    induction Hcloses as [|st cs Hst _ IH]; intros ws s.
  - simpl; intros [= _ <-] _ _; repeat split; try lia.
    change (Z.of_nat 0) with 0.
    destruct (handle_count (env s) =? 0); destruct (_keep_open (env s));
      simpl; split; reflexivity.
  - cbn [run]; rewrite bind_run.
    destruct (step engine st ws s) as [[ws1|e] s1] eqn:Hstep; [|discriminate].
    intros Hrun Hle Hconn.
    destruct st as [t|t|t|t]; try discriminate Hst; cbn [count_steps is_notify]
      in *.
    + apply step_outside_lock in Hstep as (He & Hcr1 & Hcl1);
        [|reflexivity|reflexivity].
      apply IH in Hrun; rewrite ?He, ?Hcr1, ?Hcl1 in *; auto.
    + simpl in Hstep.
      apply bind_Return_inv in Hstep as ([] & s2 & Hn & Hstep).
      injection Hstep as _ ->.
      apply notify_closed_Return in Hn as (Hc1 & Hk1 & _ & Hcr1 & Hcl1).
      set (n := count_steps is_notify cs) in *.
      assert (conn (env s) ≠ None) as Hsome by (apply Hconn; lia).
      destruct (conn (env s)) as [c|] eqn:Ec; [clear Hsome|congruence].
      apply IH in Hrun as (Hc & Hk & Hcr & Hcl).
      * rewrite Hc1, Hk1 in Hcl.
        repeat split; try lia; try congruence.
        revert Hcl1 Hcl.
        destruct (_keep_open (env s));
          destruct (Z.eqb_spec (handle_count (env s) - 1) 0);
          destruct (Z.eqb_spec (handle_count (env s) - 1) (Z.of_nat n));
          destruct (Z.eqb_spec (handle_count (env s)) (Z.of_nat (1 + n)));
          destruct (Z.eqb_spec (handle_count (env s)) 0);
          simpl; intros [? ?] [? ?]; try lia; split; (congruence || lia).
      * lia.
      * intros Hn; revert Hcl1.
        destruct (Z.eqb_spec (handle_count (env s) - 1) 0); [lia|].
        simpl; intros [-> _]; discriminate.
Qed.

(** The steps of [handle] calls and then steps of [close] calls, from a
    state without a shared handle. *)
Lemma run_opening_closing (hs cs : list Step)
    (ws ws1 : gmap nat DuckDBConnectionWrapper) (s0 s1 : St) :
  Forall (λ st, opens st = true) hs →
  Forall (λ st, closes st = true) cs →
  conn (env s0) = None →
  handle_count (env s0) = 0 →
  (count_steps is_notify cs ≤ count_steps is_lock_section hs)%nat →
  run engine (hs ++ cs) ws s0 = (Return ws1, s1) →
  let h := count_steps is_lock_section hs in
  let n := count_steps is_notify cs in
  handle_count (env s1) = Z.of_nat h - Z.of_nat n
  ∧ _keep_open (env s1) = _keep_open (env s0)
  ∧ db_created (trace s1)
    = (db_created (trace s0) + match h with O => 0 | S _ => 1 end)%nat
  ∧ if (n =? h)%nat && negb (_keep_open (env s0)) && negb (h =? 0)%nat
    then conn (env s1) = None ∧ db_closed (trace s1) = S (db_closed (trace s0))
    else (conn (env s1) = None ↔ h = 0%nat)
         ∧ db_closed (trace s1) = db_closed (trace s0).
Proof.
  intros Hopens Hcloses Hconn0 Hcount0 Hle; rewrite run_app, bind_run.
  destruct (run engine hs ws s0) as [[ws'|e] s'] eqn:Hh; [|discriminate].
  intros Hc h n; subst h n.
  apply run_opening in Hh as (Hn & Hk & Hcl & Hcr); [|assumption].
  rewrite Hconn0 in Hcr.
  apply run_closing in Hc as (Hn' & Hk' & Hcr' & Hcl'); [|assumption|lia|].
  - rewrite Hn, Hk, Hcount0 in Hcl'.
    set (h := count_steps is_lock_section hs) in *.
    set (n := count_steps is_notify cs) in *.
    replace (0 + Z.of_nat h =? Z.of_nat n) with (n =? h)%nat in Hcl'
      by (destruct (Nat.eqb_spec n h); symmetry;
          [apply Z.eqb_eq | apply Z.eqb_neq]; lia).
    replace (0 + Z.of_nat h =? 0) with (h =? 0)%nat in Hcl'
      by (destruct (Nat.eqb_spec h 0); symmetry;
          [apply Z.eqb_eq | apply Z.eqb_neq]; lia).
    repeat split; try lia; try congruence.
    + destruct h; destruct Hcr; lia.
    + destruct ((n =? h)%nat && negb (_keep_open (env s0))
                && negb (h =? 0)%nat).
      * destruct Hcl'; split; congruence.
      * destruct Hcl' as [Hcn Hcl']; split; [|congruence].
        rewrite Hcn; destruct h; destruct Hcr; split; congruence.
  - intros Hne.
    destruct (count_steps is_lock_section hs); [lia | tauto].
Qed.

(** *** Counting the steps of a schedule *)

Lemma count_steps_app (p : Step → bool) (l1 l2 : list Step) :
  count_steps p (l1 ++ l2) = (count_steps p l1 + count_steps p l2)%nat.
Proof. induction l1 as [|st l1 IH]; simpl; [reflexivity | lia]. Qed.

Lemma count_steps_Permutation (p : Step → bool) (l1 l2 : list Step) :
  l1 ≡ₚ l2 → count_steps p l1 = count_steps p l2.
Proof. induction 1; simpl; lia. Qed.

Lemma count_steps_take (p : Step → bool) (k : nat) (l : list Step) :
  (count_steps p (take k l) ≤ count_steps p l)%nat.
Proof.
  revert k; induction l as [|st l IH]; intros [|k]; simpl; try lia.
  specialize (IH k); lia.
Qed.

Lemma count_notify_opens (l : list Step) :
  Forall (λ st, opens st = true) l → count_steps is_notify l = 0%nat.
Proof.
  induction 1 as [|[t|t|t|t] l Hst _ IH]; simpl; try discriminate; lia.
Qed.

Lemma handle_calls_opens (N : nat) :
  Forall (λ st, opens st = true) (handle_calls N)
  ∧ count_steps is_lock_section (handle_calls N) = N.
Proof.
  unfold handle_calls.
  assert (∀ l : list nat,
            Forall (λ st, opens st = true)
              (flat_map (λ t, [lock_section t; make_cursor t]) l)
            ∧ count_steps is_lock_section
                (flat_map (λ t, [lock_section t; make_cursor t]) l)
              = length l) as H.
  { induction l as [|t l [IH1 IH2]]; simpl.
    - split; [constructor | reflexivity].
    - split; [repeat constructor; assumption | lia]. }
  destruct (H (seq 0 N)) as [H1 H2]; rewrite length_seq in H2.
  split; assumption.
Qed.

Lemma close_calls_closes (N : nat) :
  Forall (λ st, closes st = true) (close_calls N)
  ∧ count_steps is_notify (close_calls N) = N.
Proof.
  unfold close_calls.
  assert (∀ l : list nat,
            Forall (λ st, closes st = true)
              (flat_map (λ t, [close_cursor t; notify t]) l)
            ∧ count_steps is_notify
                (flat_map (λ t, [close_cursor t; notify t]) l)
              = length l) as H.
  { induction l as [|t l [IH1 IH2]]; simpl.
    - split; [constructor | reflexivity].
    - split; [repeat constructor; assumption | lia]. }
  destruct (H (seq 0 N)) as [H1 H2]; rewrite length_seq in H2.
  split; assumption.
Qed.

Lemma balanced_take (k : nat) (sched : list Step) (open : nat) :
  balanced open sched = true → balanced open (take k sched) = true.
Proof.
  revert k open; induction sched as [|[t|t|t|t] sched IH];
    intros [|k] open; simpl; auto.
  destruct open; [discriminate | auto].
Qed.

(** In a schedule that never closes more than it took, whatever the order
    of taking and closing, [handle_count] ends at 0 or above and the
    invariant of the shared handle holds; by [balanced_take] and
    [run_prefix] the same is true after every prefix. *)
Lemma run_balanced (sched : list Step)
    (ws ws' : gmap nat DuckDBConnectionWrapper) (s s' : St) :
  0 ≤ handle_count (env s) →
  (handle_count (env s) = 0 → _keep_open (env s) = false →
   conn (env s) = None) →
  balanced (Z.to_nat (handle_count (env s))) sched = true →
  run engine sched ws s = (Return ws', s') →
  0 ≤ handle_count (env s')
  ∧ (handle_count (env s') = 0 → _keep_open (env s') = false →
     conn (env s') = None).
Proof.
  revert ws s; induction sched as [|st sched IH]; intros ws s Hpos Hinv Hbal.
  - simpl; intros [= _ <-]; split; assumption.
  - cbn [run]; rewrite bind_run.
    destruct (step engine st ws s) as [[ws1|e] s1] eqn:Hstep; [|discriminate].
    intros Hrun; destruct st as [t|t|t|t]; simpl in Hbal.
    + simpl in Hstep.
      apply bind_Return_inv in Hstep as ([] & s2 & Hl & Hstep).
      injection Hstep as _ ->.
      apply handle_locked_Return in Hl as (Hc1 & _).
      apply (IH ws1 s1); [lia | lia | | assumption].
      rewrite Hc1, Z2Nat.inj_add by lia.
      rewrite Nat.add_1_r; assumption.
    + apply step_outside_lock in Hstep as (He & _);
        [|reflexivity|reflexivity].
      apply (IH ws1 s1); rewrite ?He; assumption.
    + apply step_outside_lock in Hstep as (He & _);
        [|reflexivity|reflexivity].
      apply (IH ws1 s1); rewrite ?He; assumption.
    + simpl in Hstep.
      apply bind_Return_inv in Hstep as ([] & s2 & Hn & Hstep).
      injection Hstep as _ ->.
      apply notify_closed_Return in Hn as (Hc1 & Hk1 & _ & _ & Hcl1).
      destruct (Z.to_nat (handle_count (env s))) as [|o] eqn:Eo;
        [discriminate|].
      apply (IH ws1 s1); [lia | | | assumption].
      * intros Hz Hf; rewrite Hc1 in Hz; rewrite Hk1 in Hf.
        apply Z.eqb_eq in Hz; rewrite Hz, Hf in Hcl1.
        destruct Hcl1; assumption.
      * replace (Z.to_nat (handle_count (env s1))) with o by lia.
        assumption.
Qed.

(** C1: [N] threads call [handle] on a new environment, their steps
    interleaved in any way, and then close the wrappers they got, the steps
    of the closes interleaved in any way; every step returns.  After every
    prefix of the schedule [handle_count] is not negative, the shared handle
    was created at most once, [handle_count = 0] without [_keep_open] means
    that there is no shared handle, and as long as a [notify_closed] is
    still to come the shared handle was not closed.  At the end
    [handle_count] is 0, and without [_keep_open] the shared handle was
    closed once and is [None]. *)
Theorem handle_close_lifecycle (credentials : DuckDBCredentials)
    (plugins : list (string * Plugin)) (N : nat) (opening closing : list Step)
    (ws : gmap nat DuckDBConnectionWrapper) (s_end : St) :
  let s0 := {| env := __init__ credentials plugins; trace := [] |} in
  let sched := opening ++ closing in
  opening ≡ₚ handle_calls N →
  closing ≡ₚ close_calls N →
  run engine sched ∅ s0 = (Return ws, s_end) →
  (∀ k r sk, run engine (take k sched) ∅ s0 = (r, sk) →
     0 ≤ handle_count (env sk)
     ∧ (db_created (trace sk) ≤ 1)%nat
     ∧ (handle_count (env sk) = 0 → _keep_open (env sk) = false →
        conn (env sk) = None)
     ∧ ((count_steps is_notify (take k sched) < N)%nat →
        db_closed (trace sk) = 0%nat))
  ∧ handle_count (env s_end) = 0
  ∧ (db_created (trace s_end) ≤ 1)%nat
  ∧ db_closed (trace s_end)
    = (if _keep_open (env s0) || (N =? 0)%nat then 0 else 1)%nat
  ∧ (_keep_open (env s0) = false → conn (env s_end) = None).
Proof.
  intros s0 sched Hopening Hclosing Hrun.
  destruct (handle_calls_opens N) as [Hopens Hlocks].
  destruct (close_calls_closes N) as [Hcloses Hnotifies].
  rewrite <- Hopening in Hopens; rewrite <- Hclosing in Hcloses.
  rewrite <- (count_steps_Permutation _ _ _ Hopening) in Hlocks.
  rewrite <- (count_steps_Permutation _ _ _ Hclosing) in Hnotifies.
  split.
  - intros k r sk Hk.
    destruct (run_prefix k _ _ _ _ _ Hrun) as (ws1 & s1 & Hk').
    rewrite Hk' in Hk; injection Hk as _ <-.
    unfold sched in *; rewrite take_app in *.
    set (hs := take k opening) in *.
    set (cs := take (k - length opening) closing) in *.
    assert (Forall (λ st, opens st = true) hs) as Hhs
      by (apply Forall_take; assumption).
    assert (Forall (λ st, closes st = true) cs) as Hcs
      by (apply Forall_take; assumption).
    pose proof (count_steps_take is_lock_section k opening) as Hh.
    pose proof (count_steps_take is_notify (k - length opening) closing) as Hn.
    fold hs in Hh; fold cs in Hn.
    assert (count_steps is_notify cs ≠ 0%nat →
            count_steps is_lock_section hs = N) as Hphase.
    { intros Hne; destruct (decide (k ≤ length opening)%nat) as [Hle|Hgt].
      - exfalso; apply Hne; unfold cs.
        replace (k - length opening)%nat with 0%nat by lia; reflexivity.
      - unfold hs; rewrite take_ge by lia; assumption. }
    rewrite count_steps_app, (count_notify_opens hs Hhs); simpl.
    apply run_opening_closing in Hk' as (Hcount & Hkeep & Hcr & Hcl);
      [|assumption|assumption|reflexivity|reflexivity|lia].
    change (db_closed (trace s0)) with 0%nat in Hcl.
    simpl in Hcr; rewrite Hkeep; revert Hcl.
    destruct (Nat.eqb_spec (count_steps is_notify cs)
                (count_steps is_lock_section hs)) as [E|E];
      destruct (Nat.eqb_spec (count_steps is_lock_section hs) 0) as [E0|E0];
      destruct (_keep_open (env s0)) eqn:Ekeep; simpl;
      intros [Hconn Hcl];
      (split; [lia|]);
      (split; [destruct (count_steps is_lock_section hs); lia|]);
      (split; [|lia]);
      intros Hz Hf; try discriminate; try assumption;
      apply Hconn; lia.
  - unfold sched in Hrun.
    apply run_opening_closing in Hrun as (Hcount & Hkeep & Hcr & Hcl);
      [|assumption|assumption|reflexivity|reflexivity|lia].
    change (db_closed (trace s0)) with 0%nat in Hcl.
    rewrite Hlocks, Hnotifies in *; rewrite Nat.eqb_refl in Hcl.
    simpl in Hcr.
    split; [lia|]; split; [destruct N; lia|].
    revert Hcl.
    destruct (_keep_open (env s0)) eqn:Ekeep;
      destruct (Nat.eqb_spec N 0) as [E0|E0]; simpl;
      intros [Hconn Hcl]; (split; [lia|]);
      intros Hf; try discriminate; try assumption.
    apply Hconn; assumption.
Qed.

End Lifecycle.

(** ** Loading and storing *)

Section LoadStore.

Variable engine : Engine.

Lemma execute_Return (w : DuckDBCursorWrapper) (sql : string)
    (bindings : option (list (option string))) (s s1 : St) (r : ExecResult) :
  DuckDBCursorWrapper_execute engine w sql bindings s = (Return r, s1) →
  engine (trace s) (cursor_execute (_cursor w) sql bindings) = inr r
  ∧ s1 = logged (cursor_execute (_cursor w) sql bindings) true s.
Proof.
  unfold DuckDBCursorWrapper_execute, try_except_RuntimeError, engine_call,
    perform.
  destruct bindings;
    (destruct (engine (trace s) (cursor_execute _ _ _)) as [e|r'];
     [simpl; destruct (is_RuntimeError (exc_class e)); discriminate|]);
    intros [= -> <-]; split; reflexivity.
Qed.

Lemma quiet_since_refl (h : History) : quiet_since h h.
Proof. exists []; split; [reflexivity | constructor]. Qed.

Lemma quiet_since_trans (h1 h2 h3 : History) :
  quiet_since h1 h2 → quiet_since h2 h3 → quiet_since h1 h3.
Proof.
  intros (n1 & -> & H1) (n2 & -> & H2); exists (n2 ++ n1).
  split; [apply app_assoc | apply Forall_app; split; assumption].
Qed.

Lemma quiet_since_logged (c : Call) (s : St) :
  is_write c = false → is_release c = false →
  quiet_since (trace s) (trace (logged c true s)).
Proof.
  intros Hw Hr; exists [{| call := c; returned := true |}].
  split; [reflexivity | repeat constructor; assumption].
Qed.

Lemma handle_quiet (s s1 : St) (w : DuckDBConnectionWrapper) :
  handle engine s = (Return w, s1) → quiet_since (trace s) (trace s1).
Proof.
  unfold handle; intros H.
  apply bind_Return_inv in H as ([] & s' & Hl & Hc).
  apply handle_cursor_Return in Hc as (_ & _ & _ & Hq).
  eapply quiet_since_trans; [|exact Hq].
  revert Hl; unfold handle_locked; binds.
  destruct (conn (env s)) as [c|]; binds;
    unfold engine_call, perform; binds; repeat (ask; binds);
    intros [= <-]; simpl.
  - apply quiet_since_refl.
  - eexists [_]; split; [reflexivity|]; repeat constructor.
Qed.

(** What a returning [acquire] leaves: one more handle, and no write and
    no release in the history. *)
Lemma acquire_Return (source_config : SourceConfig) (s s1 : St)
    (h : DuckDBConnectionWrapper) :
  acquire engine source_config s = (Return h, s1) →
  handle_count (env s1) = handle_count (env s) + 1
  ∧ quiet_since (trace s) (trace s1).
Proof.
  unfold acquire; intros H.
  apply bind_Return_inv in H as (h' & s' & Hh & H).
  apply bind_Return_inv in H as ([] & s2 & Hschema & H).
  injection H as -> ->.
  pose proof (handle_Return _ _ _ _ Hh) as (Hcount & _).
  pose proof (handle_quiet _ _ _ Hh) as Hq.
  destruct (truthy (schema source_config)).
  - apply bind_Return_inv in Hschema as (r & s3 & Hx & Hret).
    injection Hret as <-.
    apply execute_Return in Hx as (_ & ->); simpl.
    split; [assumption|].
    eapply quiet_since_trans; [exact Hq|].
    apply quiet_since_logged; reflexivity.
  - injection Hschema as <-; split; assumption.
Qed.

(** A returning catalog query adds its one [execute] to the history. *)
Lemma relation_exists_Return (cur : DuckDBCursorWrapper)
    (source_config : SourceConfig) (s s1 : St) (found : bool) :
  relation_exists engine cur source_config s = (Return found, s1) →
  s1 = logged (cursor_execute (_cursor cur) (catalog_lookup source_config).1
                 (Some (catalog_lookup source_config).2)) true s.
Proof.
  unfold relation_exists; intros H.
  apply bind_Return_inv in H as (r & s2 & Hx & H).
  apply bind_Return_inv in H as (n & s3 & Hf & H).
  injection H as _ <-.
  apply execute_Return in Hx as (_ & ->).
  destruct r as [|[|v row] r]; try discriminate.
  injection Hf as _ <-; reflexivity.
Qed.

Lemma catalog_lookup_select (source_config : SourceConfig) :
  String.prefix "CREATE OR REPLACE " (catalog_lookup source_config).1 = false.
Proof.
  unfold catalog_lookup; destruct (truthy (database source_config));
    reflexivity.
Qed.

(** [load_source] is the composition of its parts. *)
Lemma load_source_parts (plugin_name : string) (source_config : SourceConfig)
    (s : St) :
  load_source engine plugin_name source_config s
  = match dict_get plugin_name (_plugins (env s)) with
    | None => (Raise (plugin_not_found plugin_name (_plugins (env s))), s)
    | Some plugin =>
        (h ← acquire engine source_config;
         found ← check_existing engine (cursor h) source_config;
         if found : bool
         then
           if String.eqb
                (SourceConfig_get source_config "save_mode" "overwrite")
                "error_if_exists"
           then raise (source_already_exists source_config)
           else mret tt
         else load_step engine plugin_name plugin source_config h) s
    end.
Proof.
  unfold load_source; rewrite bind_run; unfold self; simpl.
  destruct (dict_get plugin_name (_plugins (env s))) as [plugin|];
    [|reflexivity].
  unfold acquire; rewrite !bind_run.
  destruct (handle engine s) as [[h|e] s1]; [|reflexivity].
  rewrite !bind_run.
  match goal with
  | |- context [(if truthy (schema source_config) then ?a else ?b) s1] =>
      destruct ((if truthy (schema source_config) then a else b) s1)
        as [[[]|e] s2]
  end; [|reflexivity].
  unfold mret at 3, M_ret; unfold check_existing.
  destruct (String.eqb _ "ignore" || String.eqb _ "error_if_exists");
    [|reflexivity].
  unfold relation_exists, catalog_lookup.
  destruct (truthy (database source_config)); simpl; rewrite !bind_run;
    (match goal with
     | |- context [DuckDBCursorWrapper_execute ?e ?c ?q ?b s2] =>
         destruct (DuckDBCursorWrapper_execute e c q b s2) as [[r|e'] s3]
     end; [|reflexivity]);
    rewrite !bind_run;
    (destruct (fetchone_0 r s3) as [[n|e'] s4]; [|reflexivity]);
    unfold mret at 1, M_ret; destruct (negb (n =? 0)); reflexivity.
Qed.

(** C2: save mode [ignore], and the catalog query counts a relation.
    [load_source] returns, and since the call the history holds no plugin
    [load], no [register], no create-or-replace statement; it holds no
    [close] of a cursor or of the shared handle either, and [handle_count]
    is one above its value before the call: the handle is not released. *)
Theorem load_source_ignore_existing (plugin_name : string)
    (source_config : SourceConfig) (plugin : Plugin)
    (h : DuckDBConnectionWrapper) (s s1 s2 : St) :
  dict_get plugin_name (_plugins (env s)) = Some plugin →
  SourceConfig_get source_config "save_mode" "overwrite" = "ignore" →
  acquire engine source_config s = (Return h, s1) →
  relation_exists engine (cursor h) source_config s1 = (Return true, s2) →
  load_source engine plugin_name source_config s = (Return tt, s2)
  ∧ quiet_since (trace s) (trace s2)
  ∧ handle_count (env s2) = handle_count (env s) + 1.
Proof.
  intros Hplugin Hmode Hacq Hfound.
  rewrite load_source_parts, Hplugin.
  rewrite (bind_Return _ _ _ _ _ Hacq).
  unfold check_existing; rewrite Hmode; simpl.
  rewrite (bind_Return _ _ _ _ _ Hfound).
  split; [reflexivity|].
  apply acquire_Return in Hacq as (Hcount & Hq).
  apply relation_exists_Return in Hfound as ->; simpl.
  split; [|assumption].
  eapply quiet_since_trans; [exact Hq|].
  apply quiet_since_logged; [apply catalog_lookup_select | reflexivity].
Qed.

(** C3: save mode [error_if_exists], and the catalog query counts a
    relation.  [load_source] raises the exception of the existing source;
    the history holds no [close] of a cursor or of the shared handle since the
    call, and [handle_count] is one above its value before the call: the
    handle is not released. *)
Theorem load_source_error_if_exists (plugin_name : string)
    (source_config : SourceConfig) (plugin : Plugin)
    (h : DuckDBConnectionWrapper) (s s1 s2 : St) :
  dict_get plugin_name (_plugins (env s)) = Some plugin →
  SourceConfig_get source_config "save_mode" "overwrite" = "error_if_exists" →
  acquire engine source_config s = (Return h, s1) →
  relation_exists engine (cursor h) source_config s1 = (Return true, s2) →
  load_source engine plugin_name source_config s
  = (Raise (source_already_exists source_config), s2)
  ∧ quiet_since (trace s) (trace s2)
  ∧ handle_count (env s2) = handle_count (env s) + 1.
Proof.
  intros Hplugin Hmode Hacq Hfound.
  rewrite load_source_parts, Hplugin.
  rewrite (bind_Return _ _ _ _ _ Hacq).
  unfold check_existing; rewrite Hmode; simpl.
  rewrite (bind_Return _ _ _ _ _ Hfound).
  split; [reflexivity|].
  apply acquire_Return in Hacq as (Hcount & Hq).
  apply relation_exists_Return in Hfound as ->; simpl.
  split; [|assumption].
  eapply quiet_since_trans; [exact Hq|].
  apply quiet_since_logged; [apply catalog_lookup_select | reflexivity].
Qed.

(** C6: when [load_source] comes to the plugin's [load] (the handle was
    acquired, and the existence check found nothing or was not made) and
    [load] returns [None], [load_source] raises the failed assertion. *)
Theorem load_source_asserts_dataframe (plugin_name : string)
    (source_config : SourceConfig) (plugin : Plugin)
    (h : DuckDBConnectionWrapper) (s s1 s2 : St) :
  dict_get plugin_name (_plugins (env s)) = Some plugin →
  acquire engine source_config s = (Return h, s1) →
  check_existing engine (cursor h) source_config s1 = (Return false, s2) →
  load plugin (trace s2) source_config = inr None →
  load_source engine plugin_name source_config s
  = (Raise assertion_failed,
     logged (plugin_load plugin_name source_config) true s2).
Proof.
  intros Hplugin Hacq Hcheck Hload.
  rewrite load_source_parts, Hplugin.
  rewrite (bind_Return _ _ _ _ _ Hacq), (bind_Return _ _ _ _ _ Hcheck).
  unfold load_step, perform; rewrite bind_run, Hload; reflexivity.
Qed.

(** C4: for a name that is not a key of the registry, [load_source] and
    [store_relation] raise the exception whose text ends with the keys of
    the registry, joined by commas; the state is the one before the call,
    so no handle was taken and nothing was called. *)
Theorem unknown_plugin_not_found (plugin_name : string)
    (source_config : SourceConfig) (target_config : TargetConfig) (s : St) :
  plugin_name ∉ keys (_plugins (env s)) →
  load_source engine plugin_name source_config s
  = (Raise (plugin_not_found plugin_name (_plugins (env s))), s)
  ∧ store_relation engine plugin_name target_config s
    = (Raise (plugin_not_found plugin_name (_plugins (env s))), s)
  ∧ str (plugin_not_found plugin_name (_plugins (env s)))
    = "Plugin " +:+ plugin_name +:+ " not found; known plugins are: "
      +:+ String.concat "," (keys (_plugins (env s))).
Proof.
  intros Hnot; apply dict_get_None in Hnot.
  split; [|split; [|reflexivity]].
  - rewrite load_source_parts, Hnot; reflexivity.
  - unfold store_relation; rewrite bind_run; unfold self; simpl.
    rewrite Hnot; reflexivity.
Qed.

(** [store_relation] is the composition of its parts. *)
Lemma store_relation_parts (plugin_name : string) (target_config : TargetConfig)
    (s : St) :
  store_relation engine plugin_name target_config s
  = match dict_get plugin_name (_plugins (env s)) with
    | None => (Raise (plugin_not_found plugin_name (_plugins (env s))), s)
    | Some plugin =>
        (adapted ← lift (adapt_target_config plugin target_config);
         export engine plugin_name plugin adapted;;
         if can_be_upstream_referenced plugin
         then
           source_config ← lift (create_source_config plugin adapted);
           load_source engine plugin_name source_config
         else mret tt) s
    end.
Proof.
  unfold store_relation; rewrite bind_run; unfold self; simpl.
  destruct (dict_get plugin_name (_plugins (env s))) as [plugin|];
    [|reflexivity].
  rewrite !bind_run.
  destruct (lift (adapt_target_config plugin target_config) s)
    as [[adapted|e] s1]; [|reflexivity].
  unfold export; rewrite !bind_run.
  destruct (handle engine s1) as [[h|e] s2]; [|reflexivity].
  rewrite !bind_run.
  destruct (DuckDBCursorWrapper_sql engine (cursor h) _ s2) as [[df|e] s3];
    [|reflexivity].
  rewrite !bind_run.
  destruct (perform _ _ s3) as [[[]|e] s4]; [|reflexivity].
  rewrite !bind_run.
  destruct (DuckDBCursorWrapper_close engine (cursor h) s4) as [[[]|e] s5];
    [|reflexivity].
  rewrite !bind_run.
  destruct (DuckDBConnectionWrapper_close engine h s5) as [[[]|e] s6];
    reflexivity.
Qed.

(** A returning [export] gives back the handle it took. *)
Lemma export_Return (plugin_name : string) (plugin : Plugin)
    (target_config : TargetConfig) (s s1 : St) :
  export engine plugin_name plugin target_config s = (Return tt, s1) →
  handle_count (env s1) = handle_count (env s).
Proof.
  unfold export; intros H.
  apply bind_Return_inv in H as (h & s2 & Hh & H).
  apply bind_Return_inv in H as (df & s3 & Hsql & H).
  apply bind_Return_inv in H as ([] & s4 & Hstore & H).
  apply bind_Return_inv in H as ([] & s5 & Hcur & H).
  apply handle_Return in Hh as (Hh & _).
  unfold DuckDBCursorWrapper_sql, engine_call in Hsql.
  unfold DuckDBCursorWrapper_close, engine_call in Hcur.
  apply perform_Return in Hsql as (_ & ->).
  apply perform_Return in Hstore as (_ & ->).
  apply perform_Return in Hcur as (_ & ->).
  apply wrapper_close_Return in H as (H & _).
  simpl in H; lia.
Qed.

(** C7: the plugin is upstream-referenceable, and the export through it
    returned (the handle it took is given back).  [store_relation] then is
    [load_source] on the source config the plugin makes of the adapted target
    config, run from the state after the export: the same result, the same
    exception when it raises one, and the same state. *)
Theorem store_relation_chains_load_source (plugin_name : string)
    (target_config adapted : TargetConfig) (plugin : Plugin)
    (source_config : SourceConfig) (s s1 : St) :
  dict_get plugin_name (_plugins (env s)) = Some plugin →
  adapt_target_config plugin target_config = inr adapted →
  export engine plugin_name plugin adapted s = (Return tt, s1) →
  can_be_upstream_referenced plugin = true →
  create_source_config plugin adapted = inr source_config →
  store_relation engine plugin_name target_config s
  = load_source engine plugin_name source_config s1
  ∧ handle_count (env s1) = handle_count (env s).
Proof.
  intros Hplugin Hadapt Hexport Hup Hsc.
  split; [|eapply export_Return; eassumption].
  rewrite store_relation_parts, Hplugin, Hadapt.
  rewrite bind_run; simpl.
  rewrite (bind_Return _ _ _ _ _ Hexport), Hup, Hsc.
  reflexivity.
Qed.

End LoadStore.

(** ** The theorems at work in the small world *)

Lemma execute_normalizes_runtime_error_witness :
  let w := {| _cursor := 1%nat |} in
  let s := Demo.fresh false [] in
  let c := cursor_execute 1%nat "select * from t" None in
  DuckDBCursorWrapper_execute
    (Demo.failing_engine (mkExc RuntimeError "Catalog Error: t does not exist"))
    w "select * from t" None s
  = (Raise (DbtRuntimeError "Catalog Error: t does not exist"),
     logged c false s)
  ∧ DuckDBCursorWrapper_execute (Demo.engine 3) w "select * from t" None s
    = (Return [[3]], logged c true s).
Proof.
  intros w s c; split.
  - apply (proj1 (execute_normalizes_runtime_error
                    (Demo.failing_engine
                       (mkExc RuntimeError "Catalog Error: t does not exist"))
                    w "select * from t" None s)
             RuntimeError "Catalog Error: t does not exist");
      reflexivity.
  - apply (proj2 (execute_normalizes_runtime_error (Demo.engine 3)
                    w "select * from t" None s));
      reflexivity.
Defined.

Lemma execute_propagates_other_errors_witness :
  let w := {| _cursor := 1%nat |} in
  let s := Demo.fresh false [] in
  let e := mkExc TypeError "execute() argument 1 must be str" in
  DuckDBCursorWrapper_execute (Demo.failing_engine e) w "select 1" None s
  = (Raise e, logged (cursor_execute 1%nat "select 1" None) false s).
Proof.
  intros w s e.
  apply (execute_propagates_other_errors (Demo.failing_engine e)
           w "select 1" None s e); reflexivity.
Defined.

Lemma close_idempotent_witness :
  let s := Demo.fresh false [] in
  close (Demo.engine 0) s = (Return tt, s).
Proof.
  intros s; apply (proj1 (close_idempotent (Demo.engine 0) s)); reflexivity.
Defined.

Lemma double_close_goes_negative_witness :
  let eng := Demo.engine 0 in
  let s := Demo.fresh false [] in
  let w := {| cursor := {| _cursor := 1%nat |} |} in
  let s3 :=
    (DuckDBConnectionWrapper_close eng w
       (DuckDBConnectionWrapper_close eng w (handle eng s).2).2).2 in
  handle_count (env s3) = -1.
Proof.
  intros eng s w s3.
  apply (proj2 (proj2 (double_close_goes_negative eng)) w s
           (handle eng s).2
           (DuckDBConnectionWrapper_close eng w (handle eng s).2).2 s3);
    reflexivity.
Defined.

Lemma handle_close_lifecycle_witness :
  let eng := Demo.engine 0 in
  let s0 := {| env := __init__ (Demo.creds false) []; trace := [] |} in
  let opening :=
    [lock_section 1; lock_section 0; make_cursor 0; make_cursor 1]%nat in
  let closing :=
    [close_cursor 1; close_cursor 0; notify 0; notify 1]%nat in
  let s_end := (run eng (opening ++ closing) ∅ s0).2 in
  handle_count (env s_end) = 0
  ∧ (db_created (trace s_end) ≤ 1)%nat
  ∧ db_closed (trace s_end) = 1%nat
  ∧ (_keep_open (env s0) = false → conn (env s_end) = None).
Proof.
  intros eng s0 opening closing s_end.
  refine (proj2 (handle_close_lifecycle eng (Demo.creds false) [] 2
                   opening closing
                   match (run eng (opening ++ closing) ∅ s0).1 with
                   | Return ws => ws
                   | Raise _ => ∅
                   end s_end _ _ _)).
  - apply (bool_decide_unpack _); vm_compute; reflexivity.
  - apply (bool_decide_unpack _); vm_compute; reflexivity.
  - reflexivity.
Defined.

(** One thread takes and closes, then another does: the shared handle is
    created twice and closed twice.  "Created at most once" is a property
    of schedules in which every handle is taken before the first close. *)
Example handle_reopens_after_last_close :
  let eng := Demo.engine 0 in
  let s0 := {| env := __init__ (Demo.creds false) []; trace := [] |} in
  let sched :=
    [lock_section 0; make_cursor 0; close_cursor 0; notify 0;
     lock_section 1; make_cursor 1; close_cursor 1; notify 1]%nat in
  let s_end := (run eng sched ∅ s0).2 in
  db_created (trace s_end) = 2%nat ∧ db_closed (trace s_end) = 2%nat
  ∧ handle_count (env s_end) = 0.
Proof. repeat split. Qed.

Lemma load_source_ignore_existing_witness :
  let eng := Demo.engine 1 in
  let s := Demo.fresh false (Demo.registry false (Some (Df 7))) in
  let s2 := (load_source eng "mem" (Demo.source "ignore") s).2 in
  load_source eng "mem" (Demo.source "ignore") s = (Return tt, s2)
  ∧ quiet_since (trace s) (trace s2)
  ∧ handle_count (env s2) = handle_count (env s) + 1.
Proof.
  intros eng s s2.
  apply (load_source_ignore_existing eng "mem" (Demo.source "ignore")
           (Demo.plugin false (Some (Df 7)))
           {| cursor := {| _cursor := 1%nat |} |} s
           (acquire eng (Demo.source "ignore") s).2 s2);
    reflexivity.
Defined.

Lemma load_source_error_if_exists_witness :
  let eng := Demo.engine 1 in
  let s := Demo.fresh false (Demo.registry false (Some (Df 7))) in
  let s2 := (load_source eng "mem" (Demo.source "error_if_exists") s).2 in
  load_source eng "mem" (Demo.source "error_if_exists") s
  = (Raise (mkExc Exception "Source main.t1 already exists!"), s2)
  ∧ quiet_since (trace s) (trace s2)
  ∧ handle_count (env s2) = handle_count (env s) + 1.
Proof.
  intros eng s s2.
  apply (load_source_error_if_exists eng "mem" (Demo.source "error_if_exists")
           (Demo.plugin false (Some (Df 7)))
           {| cursor := {| _cursor := 1%nat |} |} s
           (acquire eng (Demo.source "error_if_exists") s).2 s2);
    reflexivity.
Defined.

Lemma load_source_asserts_dataframe_witness :
  let eng := Demo.engine 0 in
  let s := Demo.fresh false (Demo.registry false None) in
  let s2 :=
    (check_existing eng {| _cursor := 1%nat |} (Demo.source "ignore")
       (acquire eng (Demo.source "ignore") s).2).2 in
  load_source eng "mem" (Demo.source "ignore") s
  = (Raise (mkExc AssertionError EmptyString),
     logged (plugin_load "mem" (Demo.source "ignore")) true s2).
Proof.
  intros eng s s2.
  apply (load_source_asserts_dataframe eng "mem" (Demo.source "ignore")
           (Demo.plugin false None)
           {| cursor := {| _cursor := 1%nat |} |} s
           (acquire eng (Demo.source "ignore") s).2 s2);
    reflexivity.
Defined.

Lemma unknown_plugin_not_found_witness :
  let eng := Demo.engine 0 in
  let s :=
    Demo.fresh false
      [("mem", Demo.plugin false None); ("csv", Demo.plugin false None)] in
  load_source eng "excel" (Demo.source "overwrite") s
  = (Raise (mkExc Exception
              "Plugin excel not found; known plugins are: mem,csv"), s)
  ∧ store_relation eng "excel" Demo.target s
    = (Raise (mkExc Exception
                "Plugin excel not found; known plugins are: mem,csv"), s).
Proof.
  intros eng s.
  destruct (unknown_plugin_not_found eng "excel" (Demo.source "overwrite")
              Demo.target s) as (Hload & Hstore & _).
  - apply (proj1 (dict_get_None "excel" (_plugins (env s)))); reflexivity.
  - split; [exact Hload | exact Hstore].
Defined.

Lemma store_relation_chains_load_source_witness :
  let eng := Demo.engine 0 in
  let plugin := Demo.plugin true (Some (Df 7)) in
  let s := Demo.fresh false (Demo.registry true (Some (Df 7))) in
  let s1 := (export eng "mem" plugin Demo.target s).2 in
  store_relation eng "mem" Demo.target s
  = load_source eng "mem" (Demo.source "overwrite") s1
  ∧ handle_count (env s1) = handle_count (env s).
Proof.
  intros eng plugin s s1.
  apply (store_relation_chains_load_source eng "mem" Demo.target Demo.target
           plugin (Demo.source "overwrite") s s1);
    reflexivity.
Defined.

(** * More of local.py *)

(** ** Text *)

Lemma count_char_append (c : ascii) (s1 s2 : string) :
  count_char c (s1 +:+ s2) = (count_char c s1 + count_char c s2)%nat.
Proof. induction s1 as [|c' s1 IH]; simpl; [reflexivity | rewrite IH; lia]. Qed.

Lemma length_append (s1 s2 : string) :
  String.length (s1 +:+ s2) = (String.length s1 + String.length s2)%nat.
Proof. induction s1 as [|c s1 IH]; simpl; [reflexivity | rewrite IH; lia]. Qed.

Lemma replace_dots_no_dot (s : string) :
  count_char "." (replace_dots s) = 0%nat
  ∧ String.length (replace_dots s) = String.length s.
Proof.
  induction s as [|c s [IH1 IH2]]; [split; reflexivity|].
  cbn [replace_dots count_char String.length]; rewrite IH1, IH2.
  split; [|reflexivity].
  destruct (Ascii.eqb_spec c ".") as [->|Hc]; [reflexivity|].
  destruct (Ascii.eqb_spec "." c) as [<-|_]; [congruence | reflexivity].
Qed.

(** X1: the name a dataframe is registered under holds no dot, whatever
    the table name: it is the table name with every dot turned into an
    underscore, three characters longer. *)
Theorem df_name_has_no_dot (source_config : SourceConfig) :
  count_char "." (df_name source_config) = 0%nat
  ∧ String.length (df_name source_config)
    = (String.length (table_name source_config) + 3)%nat.
Proof.
  unfold df_name; rewrite count_char_append, length_append.
  destruct (replace_dots_no_dot (table_name source_config)) as [-> ->].
  split; reflexivity.
Qed.

(** X2: the catalog query has as many placeholders as it is given
    bindings: the schema and the identifier, and the database as a third
    when the source has one; the statement ends with the catalog filter
    exactly then. *)
Theorem catalog_lookup_placeholders (source_config : SourceConfig) :
  let (q, params) := catalog_lookup source_config in
  count_char "?" q = length params
  ∧ params
    = [schema source_config; Some (identifier source_config)]
      ++ (if truthy (database source_config)
          then [database source_config] else [])
  ∧ q = catalog_query
        +:+ (if truthy (database source_config)
             then "AND table_catalog = ?" else EmptyString).
Proof.
  unfold catalog_lookup; destruct (truthy (database source_config));
    repeat split; reflexivity.
Qed.

(** ** submit_python_job *)

(** X3: a model without the key [alias] makes [submit_python_job] raise
    [KeyError('alias')] before the job is run, with the state untouched;
    with the key, the job is run on the alias, and when it returns the
    response is OK. *)
Theorem submit_python_job_alias (query : Cursor → string → M DataFrame)
    (run_python_job :
       DuckDBCursorWrapper → (string → M DataFrame) → string → string → M unit)
    (w : DuckDBConnectionWrapper) (parsed_model : list (string * string))
    (compiled_code : string) (s : St) :
  ("alias" ∉ keys parsed_model →
   submit_python_job query run_python_job w parsed_model compiled_code s
   = (Raise (KeyError "alias"), s))
  ∧ (∀ alias s1,
       dict_get "alias" parsed_model = Some alias →
       run_python_job (cursor w)
         (λ table_name, query (_cursor (cursor w))
                          ("select * from " +:+ table_name))
         alias compiled_code s
       = (Return tt, s1) →
       submit_python_job query run_python_job w parsed_model compiled_code s
       = (Return {| _message := "OK" |}, s1)).
Proof.
  split.
  - intros Hnot; apply dict_get_None in Hnot.
    unfold submit_python_job; rewrite bind_run, Hnot; reflexivity.
  - intros alias s1 Halias Hjob.
    unfold submit_python_job; rewrite bind_run, Halias; simpl.
    rewrite bind_run, Hjob; reflexivity.
Qed.

Lemma submit_python_job_alias_witness :
  let query := λ (cur : Cursor) (sql : string), mret (Df cur) : M DataFrame in
  let job := λ (con : DuckDBCursorWrapper) (ldf : string → M DataFrame)
               (alias code : string), (ldf alias;; mret tt) : M unit in
  let w := {| cursor := {| _cursor := 1%nat |} |} in
  let s := Demo.fresh false [] in
  submit_python_job query job w [("name", "m1")] "def model(): pass" s
  = (Raise (mkExc (Subclass "KeyError" (Subclass "LookupError" Exception))
              "'alias'"), s)
  ∧ submit_python_job query job w [("alias", "m1")] "def model(): pass" s
    = (Return {| _message := "OK" |}, s).
Proof.
  intros query job w s; split.
  - apply (proj1 (submit_python_job_alias query job w [("name", "m1")]
                    "def model(): pass" s)).
    apply (proj1 (dict_get_None "alias" [("name", "m1")])); reflexivity.
  - apply (proj2 (submit_python_job_alias query job w [("alias", "m1")]
                    "def model(): pass" s) "m1" s); reflexivity.
Defined.

(** ** When the engine fails *)

Section Failures.

Variable engine : Engine.

(** X4: a [handle] that raises has either failed to create the shared
    handle, and then the environment is as before the call, or it has
    failed to make the cursor, and then the handle it does not hand out is
    counted all the same: [handle_count] is one higher, with the shared
    handle in place. *)
Theorem handle_raises (s s1 : St) (e : PyExc) :
  handle engine s = (Raise e, s1) →
  (conn (env s) = None
   ∧ engine (trace s) initialize_db = inl e
   ∧ s1 = logged initialize_db false s)
  ∨ (handle_count (env s1) = handle_count (env s) + 1
     ∧ conn (env s1) ≠ None).
Proof.
  unfold handle; rewrite bind_run.
  destruct (handle_locked engine s) as [[[]|e'] s'] eqn:Hl.
  - intros Hc; right.
    apply handle_locked_Return in Hl as (Hcount & _ & _ & _ & Hconn).
    assert (env s1 = env s') as ->.
    { revert Hc; unfold handle_cursor; binds.
      destruct (conn (env s')) as [c|]; [|intros [= _ <-]; reflexivity].
      unfold engine_call, perform; binds.
      destruct (engine (trace s') (conn_cursor c)) as [e1|raw];
        [intros [= _ <-]; reflexivity|].
      binds.
      destruct (engine _ (initialize_cursor raw _)) as [e2|cur];
        [intros [= _ <-]; reflexivity | discriminate]. }
    split; [assumption|].
    destruct (conn (env s)) as [c|]; destruct Hconn as [Hconn _];
      congruence.
  - intros [= <- <-]; left; revert Hl.
    unfold handle_locked; binds.
    destruct (conn (env s)) as [c|]; binds; [discriminate|].
    unfold engine_call, perform; binds.
    destruct (engine (trace s) initialize_db) as [e1|c]; binds;
      [|discriminate].
    intros [= <- <-]; repeat split.
Qed.

(** X5: when the engine's [conn.close()] raises, [close] raises the same
    exception and keeps the shared handle; called through
    [notify_closed] for the last handle, the count is already at 0 then,
    so the environment is left with [handle_count = 0], no keep-open and a
    shared handle. *)
Theorem close_raises (s : St) (c : Conn) (e : PyExc) :
  conn (env s) = Some c →
  engine (trace s) (conn_close c) = inl e →
  close engine s = (Raise e, logged (conn_close c) false s)
  ∧ (handle_count (env s) = 1 → _keep_open (env s) = false →
     ∃ s1, notify_closed engine s = (Raise e, s1)
           ∧ handle_count (env s1) = 0
           ∧ conn (env s1) = Some c).
Proof.
  intros Hconn Hraise; split.
  - unfold close; binds; rewrite Hconn.
    unfold engine_call, perform; binds; rewrite Hraise; reflexivity.
  - intros Hcount Hkeep; unfold notify_closed; binds.
    rewrite Hcount, Hkeep; simpl.
    unfold close; binds; rewrite Hconn.
    unfold engine_call, perform; binds; rewrite Hraise; simpl.
    eexists; split; [reflexivity|]; simpl; split; [lia | assumption].
Qed.

End Failures.

Lemma handle_raises_witness :
  let e := mkExc (Subclass "IOException" Exception) "extension not found" in
  let eng := World.failing_at World.at_initialize_cursor e in
  let s := Demo.fresh false [] in
  let s1 := (handle eng s).2 in
  handle_count (env s1) = handle_count (env s) + 1 ∧ conn (env s1) ≠ None.
Proof.
  intros e eng s s1.
  destruct (handle_raises eng s s1 e) as [(_ & H & _)|H].
  - reflexivity.
  - discriminate H.
  - exact H.
Defined.

Lemma close_raises_witness :
  let e := mkExc (Subclass "IOException" Exception) "disk full" in
  let eng := World.failing_at World.at_conn_close e in
  let s :=
    {| env := set_handle_count 1 (set_conn (Some 0%nat)
                                    (__init__ (Demo.creds false) []));
       trace := [] |} in
  close eng s = (Raise e, logged (conn_close 0%nat) false s).
Proof.
  intros e eng s.
  apply (proj1 (close_raises eng s 0%nat e eq_refl eq_refl)).
Defined.

(** ** What every outcome keeps *)

Section Stable.

Context {R : LocalEnvironment → LocalEnvironment → Prop} `{!PreOrder R}.

Lemma stable_ret {A : Type} (a : A) : stable R (mret a : M A).
Proof. intros s; reflexivity. Qed.

Lemma stable_raise {A : Type} (e : PyExc) : stable R (raise e : M A).
Proof. intros s; reflexivity. Qed.

Lemma stable_self : stable R self.
Proof. intros s; reflexivity. Qed.

Lemma stable_lift {A : Type} (r : PyExc + A) : stable R (lift r).
Proof. destruct r; [apply stable_raise | apply stable_ret]. Qed.

Lemma stable_perform {A : Type} (c : Call) (reply : History → PyExc + A) :
  stable R (perform c reply).
Proof.
  intros s; unfold perform; destruct (reply (trace s)); reflexivity.
Qed.

Lemma stable_set_self (f : LocalEnvironment → LocalEnvironment) :
  (∀ e, R e (f e)) → stable R (set_self f).
Proof. intros Hf s; apply Hf. Qed.

Lemma stable_bind {A B : Type} (m : M A) (f : A → M B) :
  stable R m → (∀ a, stable R (f a)) → stable R (m ≫= f).
Proof.
  intros Hm Hf s; rewrite bind_run; specialize (Hm s).
  destruct (m s) as [[a|e] s1]; [|exact Hm].
  etransitivity; [exact Hm | apply Hf].
Qed.

Lemma stable_try {A : Type} (body : M A) (handler : PyExc → M A) :
  stable R body → (∀ e, stable R (handler e)) →
  stable R (try_except_RuntimeError body handler).
Proof.
  intros Hb Hh s; unfold try_except_RuntimeError; specialize (Hb s).
  destruct (body s) as [[a|e] s1]; [exact Hb|].
  destruct (is_RuntimeError (exc_class e)); [|exact Hb].
  etransitivity; [exact Hb | apply Hh].
Qed.

End Stable.

Create HintDb stable.

(** Take a method apart down to its calls and its assignments; the methods
    in the hint database are not taken apart again. *)
Ltac stable_steps :=
  repeat first
    [ solve [auto with stable nocore] | progress cbv zeta
    | apply stable_ret | apply stable_raise | apply stable_self
    | apply stable_lift | apply stable_perform
    | apply stable_bind; [|intros ?]
    | apply stable_try; [|intros ?]
    | match goal with
      | |- stable _ (match ?x with _ => _ end) => destruct x
      | |- stable _ (let (_, _) := ?x in _) => destruct x
      end ].

Global Instance settled_preorder : PreOrder settled.
Proof.
  split.
  - intros e; repeat split; reflexivity.
  - intros e1 e2 e3 (H1 & H2 & H3) (H1' & H2' & H3').
    repeat split; [congruence | congruence | etransitivity; eassumption].
Qed.

Section Settled.

Variable engine : Engine.

Lemma execute_stable {R : LocalEnvironment → LocalEnvironment → Prop}
    `{!PreOrder R} (w : DuckDBCursorWrapper) (sql : string)
    (bindings : option (list (option string))) :
  stable R (DuckDBCursorWrapper_execute engine w sql bindings).
Proof.
  unfold DuckDBCursorWrapper_execute, engine_call; stable_steps.
Qed.

(** The assignments of the methods: to [conn], to [handle_count], and into
    the cache. *)
Ltac settled_assignments :=
  apply stable_set_self; intros ?; repeat split; try reflexivity;
  simpl; apply dom_insert_subseteq.

Lemma close_settled : stable settled (close engine).
Proof. unfold close, engine_call; stable_steps; settled_assignments. Qed.

Lemma notify_closed_settled : stable settled (notify_closed engine).
Proof.
  unfold notify_closed, engine_call; stable_steps; settled_assignments.
Qed.

Lemma handle_settled : stable settled (handle engine).
Proof.
  unfold handle, handle_locked, handle_cursor, engine_call; stable_steps;
    settled_assignments.
Qed.

Lemma wrapper_close_settled (w : DuckDBConnectionWrapper) :
  stable settled (DuckDBConnectionWrapper_close engine w).
Proof.
  unfold DuckDBConnectionWrapper_close, DuckDBCursorWrapper_close,
    engine_call; stable_steps; settled_assignments.
Qed.

Lemma load_source_settled (plugin_name : string)
    (source_config : SourceConfig) :
  stable settled (load_source engine plugin_name source_config).
Proof.
  unfold load_source, DuckDBCursorWrapper_register,
    DuckDBCursorWrapper_close, fetchone_0, engine_call.
  stable_steps; settled_assignments.
Qed.

Hint Resolve handle_settled wrapper_close_settled load_source_settled
  : stable.

Lemma store_relation_settled (plugin_name : string)
    (target_config : TargetConfig) :
  stable settled (store_relation engine plugin_name target_config).
Proof.
  unfold store_relation, DuckDBCursorWrapper_sql, DuckDBCursorWrapper_close,
    engine_call.
  stable_steps.
Qed.

Lemma run_settled (sched : list Step) (ws : gmap nat DuckDBConnectionWrapper) :
  stable settled (run engine sched ws).
Proof.
  revert ws; induction sched as [|st sched IH]; intros ws; simpl.
  - apply stable_ret.
  - apply stable_bind; [|intros ws'; apply IH].
    destruct st; simpl; unfold DuckDBCursorWrapper_close, engine_call;
      stable_steps; settled_assignments.
Qed.

(** X6: whatever [load_source], [store_relation] or a schedule of [handle]
    and [close] steps does, and whether it returns or raises, the registry
    of plugins and the keep-open flag are afterwards what they were, and no
    name bound in the cache of registered dataframes has gone. *)
Theorem registry_and_cache_kept (plugin_name : string)
    (source_config : SourceConfig) (target_config : TargetConfig)
    (sched : list Step) (ws : gmap nat DuckDBConnectionWrapper) (s : St) :
  settled (env s) (env (load_source engine plugin_name source_config s).2)
  ∧ settled (env s)
      (env (store_relation engine plugin_name target_config s).2)
  ∧ settled (env s) (env (run engine sched ws s).2).
Proof.
  split; [apply load_source_settled|].
  split; [apply store_relation_settled | apply run_settled].
Qed.

(** *** How far [handle_count] moves *)

Lemma moves_weaken {A : Type} (m : M A) (r x r' x' : Z * Z) :
  moves m r x →
  r'.1 ≤ r.1 → r.2 ≤ r'.2 → x'.1 ≤ x.1 → x.2 ≤ x'.2 →
  moves m r' x'.
Proof.
  intros Hm ? ? ? ? s; specialize (Hm s); simpl in *.
  destruct (m s).1; lia.
Qed.

Lemma moves_bind {A B : Type} (m : M A) (f : A → M B) (r1 x1 r2 x2 : Z * Z) :
  moves m r1 x1 → (∀ a, moves (f a) r2 x2) →
  moves (m ≫= f) (r1.1 + r2.1, r1.2 + r2.2)
    (Z.min x1.1 (r1.1 + x2.1), Z.max x1.2 (r1.2 + x2.2)).
Proof.
  intros Hm Hf s; specialize (Hm s); simpl in *; rewrite bind_run.
  destruct (m s) as [[a|e] s1]; simpl in *; [|lia].
  specialize (Hf a s1); simpl in Hf.
  destruct (f a s1) as [[b|e] s2]; simpl in *; lia.
Qed.

(** A method that leaves the environment as it is. *)
Lemma moves_stable_eq {A : Type} (m : M A) :
  stable eq m → moves m (0, 0) (0, 0).
Proof.
  intros Hm s; specialize (Hm s); simpl; rewrite <- Hm.
  destruct (m s).1; lia.
Qed.

Lemma moves_ret {A : Type} (a : A) (r x : Z * Z) :
  r.1 ≤ 0 ≤ r.2 → moves (mret a : M A) r x.
Proof. intros H s; simpl; lia. Qed.

Lemma moves_raise {A : Type} (e : PyExc) (r x : Z * Z) :
  x.1 ≤ 0 ≤ x.2 → moves (raise e : M A) r x.
Proof. intros H s; simpl; lia. Qed.

Lemma moves_handle_locked : moves (handle_locked engine) (1, 1) (0, 0).
Proof.
  intros s; simpl.
  destruct (handle_locked engine s) as [[[]|e] s1] eqn:Hl; simpl.
  - apply handle_locked_Return in Hl as (Hc & _); lia.
  - revert Hl; unfold handle_locked; binds.
    destruct (conn (env s)) as [c|]; binds; [discriminate|].
    unfold engine_call, perform; binds.
    destruct (engine (trace s) initialize_db) as [e1|c]; binds;
      [|discriminate].
    intros [= _ <-]; simpl; lia.
Qed.

Lemma moves_notify_closed : moves (notify_closed engine) (-1, -1) (-1, -1).
Proof.
  intros s; simpl; rewrite notify_closed_decrements.
  destruct (notify_closed engine s).1; lia.
Qed.

Lemma handle_cursor_stable_eq : stable eq (handle_cursor engine).
Proof. unfold handle_cursor, engine_call; stable_steps. Qed.

Lemma moves_handle : moves (handle engine) (1, 1) (0, 1).
Proof.
  unfold handle.
  eapply moves_weaken;
    [apply (moves_bind _ _ (1, 1) (0, 0) (0, 0) (0, 0));
     [apply moves_handle_locked
     | intros _; apply moves_stable_eq, handle_cursor_stable_eq]
    | simpl; lia ..].
Qed.

Lemma moves_wrapper_close (w : DuckDBConnectionWrapper) :
  moves (DuckDBConnectionWrapper_close engine w) (-1, -1) (-1, 0).
Proof.
  unfold DuckDBConnectionWrapper_close.
  eapply moves_weaken;
    [apply (moves_bind _ _ (0, 0) (0, 0) (-1, -1) (-1, -1));
     [apply moves_stable_eq; unfold DuckDBCursorWrapper_close, engine_call;
      stable_steps
     | intros _; apply moves_notify_closed]
    | simpl; lia ..].
Qed.

Lemma moves_set_self (f : LocalEnvironment → LocalEnvironment) (x : Z * Z) :
  (∀ e, handle_count (f e) = handle_count e) →
  moves (set_self f) (0, 0) x.
Proof. intros Hf s; simpl; rewrite Hf; lia. Qed.

(** After a step that leaves [handle_count] alone, what follows decides. *)
Lemma moves_still_bind {A B : Type} (m : M A) (f : A → M B) (r x : Z * Z) :
  moves m (0, 0) (0, 0) → (∀ a, moves (f a) r x) → x.1 ≤ 0 ≤ x.2 →
  moves (m ≫= f) r x.
Proof.
  intros Hm Hf Hx.
  eapply moves_weaken; [apply (moves_bind _ _ _ _ _ _ Hm Hf) | simpl; lia ..].
Qed.

Lemma execute_still (w : DuckDBCursorWrapper) (sql : string)
    (bindings : option (list (option string))) :
  moves (DuckDBCursorWrapper_execute engine w sql bindings) (0, 0) (0, 0).
Proof. apply moves_stable_eq, execute_stable. Qed.

Lemma perform_still {A : Type} (c : Call) (reply : History → PyExc + A) :
  moves (perform c reply) (0, 0) (0, 0).
Proof. apply moves_stable_eq, stable_perform. Qed.

Lemma moves_acquire (source_config : SourceConfig) :
  moves (acquire engine source_config) (1, 1) (0, 1).
Proof.
  unfold acquire.
  eapply moves_weaken;
    [apply (moves_bind _ _ (1, 1) (0, 1) (0, 0) (0, 0));
     [apply moves_handle|intros h]
    | simpl; lia ..].
  apply moves_still_bind; [|intros _; apply moves_ret; simpl; lia|simpl; lia].
  destruct (truthy (schema source_config)).
  - apply moves_still_bind;
      [apply execute_still|intros _; apply moves_ret; simpl; lia|simpl; lia].
  - apply moves_ret; simpl; lia.
Qed.

Lemma check_existing_still (cur : DuckDBCursorWrapper)
    (source_config : SourceConfig) :
  moves (check_existing engine cur source_config) (0, 0) (0, 0).
Proof.
  apply moves_stable_eq.
  unfold check_existing, relation_exists, fetchone_0.
  stable_steps; apply execute_stable.
Qed.

Lemma moves_materialize (plugin : Plugin) (source_config : SourceConfig)
    (h : DuckDBConnectionWrapper) (df : DataFrame) :
  moves (materialize engine plugin source_config h df) (-1, -1) (-1, 0).
Proof.
  unfold materialize; cbv zeta.
  apply moves_still_bind; [apply perform_still|intros _|simpl; lia].
  apply moves_still_bind; [|intros _|simpl; lia].
  { destruct (String.eqb _ "view");
      [apply moves_set_self; reflexivity | apply moves_ret; simpl; lia]. }
  apply moves_still_bind; [apply execute_still|intros _|simpl; lia].
  apply moves_still_bind; [apply perform_still|intros _|simpl; lia].
  apply moves_wrapper_close.
Qed.

Lemma moves_load_step (plugin_name : string) (plugin : Plugin)
    (source_config : SourceConfig) (h : DuckDBConnectionWrapper) :
  moves (load_step engine plugin_name plugin source_config h) (-1, -1) (-1, 0).
Proof.
  unfold load_step.
  apply moves_still_bind; [apply perform_still|intros [df|]|simpl; lia].
  - apply moves_materialize.
  - apply moves_raise; simpl; lia.
Qed.

Lemma moves_load_source (plugin_name : string) (source_config : SourceConfig) :
  moves (load_source engine plugin_name source_config) (0, 1) (0, 1).
Proof.
  intros s; rewrite load_source_parts.
  destruct (dict_get plugin_name (_plugins (env s))) as [plugin|];
    [|simpl; lia].
  revert s.
  eapply moves_weaken;
    [apply (moves_bind _ _ (1, 1) (0, 1) (-1, 0) (-1, 0));
     [apply moves_acquire|intros h]
    | simpl; lia ..].
  apply moves_still_bind; [apply check_existing_still| |simpl; lia].
  intros [|].
  - destruct (String.eqb _ "error_if_exists");
      [apply moves_raise | apply moves_ret]; simpl; lia.
  - eapply moves_weaken; [apply moves_load_step | simpl; lia ..].
Qed.

Lemma moves_export (plugin_name : string) (plugin : Plugin)
    (target_config : TargetConfig) :
  moves (export engine plugin_name plugin target_config) (0, 0) (0, 1).
Proof.
  unfold export.
  eapply moves_weaken;
    [apply (moves_bind _ _ (1, 1) (0, 1) (-1, -1) (-1, 0));
     [apply moves_handle|intros h]
    | simpl; lia ..].
  apply moves_still_bind; [apply perform_still|intros df|simpl; lia].
  apply moves_still_bind; [apply perform_still|intros _|simpl; lia].
  apply moves_still_bind; [apply perform_still|intros _|simpl; lia].
  apply moves_wrapper_close.
Qed.

Lemma moves_store_relation (plugin_name : string)
    (target_config : TargetConfig) :
  moves (store_relation engine plugin_name target_config) (0, 1) (0, 1).
Proof.
  intros s; rewrite store_relation_parts.
  destruct (dict_get plugin_name (_plugins (env s))) as [plugin|];
    [|simpl; lia].
  revert s.
  apply moves_still_bind;
    [apply moves_stable_eq, stable_lift|intros adapted|simpl; lia].
  eapply moves_weaken;
    [apply (moves_bind _ _ (0, 0) (0, 1) (0, 1) (0, 1));
     [apply moves_export|intros _]
    | simpl; lia ..].
  destruct (can_be_upstream_referenced plugin);
    [|apply moves_ret; simpl; lia].
  apply moves_still_bind;
    [apply moves_stable_eq, stable_lift|intros sc|simpl; lia].
  apply moves_load_source.
Qed.

(** X7: a call of [load_source] or of [store_relation], whether it returns
    or raises, leaves [handle_count] at its value before the call or one
    above it: no call takes the count down, and none leaves more than one
    handle behind. *)
Theorem handle_count_after_call (plugin_name : string)
    (source_config : SourceConfig) (target_config : TargetConfig) (s : St) :
  (handle_count (env s)
   ≤ handle_count (env (load_source engine plugin_name source_config s).2)
   ≤ handle_count (env s) + 1)
  ∧ (handle_count (env s)
     ≤ handle_count (env (store_relation engine plugin_name target_config s).2)
     ≤ handle_count (env s) + 1).
Proof.
  pose proof (moves_load_source plugin_name source_config s) as Hl.
  pose proof (moves_store_relation plugin_name target_config s) as Hs.
  simpl in Hl, Hs.
  destruct (load_source engine plugin_name source_config s).1;
    destruct (store_relation engine plugin_name target_config s).1; lia.
Qed.

End Settled.

(** ** What holds along every schedule and every call *)

Section Lasting.

Context {R : St → St → Prop} `{!PreOrder R}.

Lemma lasting_ret {A : Type} (a : A) : lasting R (mret a : M A).
Proof. intros s; reflexivity. Qed.

Lemma lasting_raise {A : Type} (e : PyExc) : lasting R (raise e : M A).
Proof. intros s; reflexivity. Qed.

Lemma lasting_self : lasting R self.
Proof. intros s; reflexivity. Qed.

Lemma lasting_lift {A : Type} (r : PyExc + A) : lasting R (lift r).
Proof. destruct r; [apply lasting_raise | apply lasting_ret]. Qed.

Lemma lasting_perform {A : Type} (c : Call) (reply : History → PyExc + A) :
  (∀ s ok, R s (logged c ok s)) → lasting R (perform c reply).
Proof.
  intros Hc s; unfold perform; destruct (reply (trace s)); apply Hc.
Qed.

Lemma lasting_set_self (f : LocalEnvironment → LocalEnvironment) :
  (∀ s, R s {| env := f (env s); trace := trace s |}) →
  lasting R (set_self f).
Proof. intros Hf s; apply Hf. Qed.

Lemma lasting_bind {A B : Type} (m : M A) (f : A → M B) :
  lasting R m → (∀ a, lasting R (f a)) → lasting R (m ≫= f).
Proof.
  intros Hm Hf s; rewrite bind_run; specialize (Hm s).
  destruct (m s) as [[a|e] s1]; [|exact Hm].
  etransitivity; [exact Hm | apply Hf].
Qed.

Lemma lasting_try {A : Type} (body : M A) (handler : PyExc → M A) :
  lasting R body → (∀ e, lasting R (handler e)) →
  lasting R (try_except_RuntimeError body handler).
Proof.
  intros Hb Hh s; unfold try_except_RuntimeError; specialize (Hb s).
  destruct (body s) as [[a|e] s1]; [exact Hb|].
  destruct (is_RuntimeError (exc_class e)); [|exact Hb].
  etransitivity; [exact Hb | apply Hh].
Qed.

End Lasting.

Create HintDb lasting.

Ltac lasting_steps :=
  repeat first
    [ solve [auto with lasting nocore] | progress cbv zeta
    | apply lasting_ret | apply lasting_raise | apply lasting_self
    | apply lasting_lift
    | apply lasting_bind; [|intros ?]
    | apply lasting_try; [|intros ?]
    | match goal with
      | |- lasting _ (match ?x with _ => _ end) => destruct x
      | |- lasting _ (let (_, _) := ?x in _) => destruct x
      end ].

Global Instance kept_open_preorder : PreOrder kept_open.
Proof.
  split.
  - intros s Hk; repeat split; auto.
  - intros s1 s2 s3 H12 H23 Hk.
    destruct (H12 Hk) as (Hk2 & Hc2 & Hn2).
    destruct (H23 Hk2) as (Hk3 & Hc3 & Hn3).
    repeat split; [assumption | congruence |].
    intros Hconn; rewrite Hn3, Hn2; auto.
    rewrite Hn2; assumption.
Qed.

Global Instance keeps_preorder (I : LocalEnvironment → Prop) :
  PreOrder (keeps I).
Proof. split; [intros e H; exact H | intros e1 e2 e3 H1 H2 H; auto]. Qed.

Section KeptOpen.

Variable engine : Engine.

Lemma logged_kept_open (c : Call) (s : St) (ok : bool) :
  is_conn_close c = false → kept_open s (logged c ok s).
Proof.
  intros Hc Hk; repeat split; auto.
  unfold db_closed; simpl; rewrite Hc, andb_false_r; reflexivity.
Qed.

Lemma perform_kept_open {A : Type} (c : Call) (reply : History → PyExc + A) :
  is_conn_close c = false → lasting kept_open (perform c reply).
Proof.
  intros Hc; apply lasting_perform; intros s ok.
  apply logged_kept_open; assumption.
Qed.

Lemma handle_locked_kept_open : lasting kept_open (handle_locked engine).
Proof.
  intros s Hk; unfold handle_locked; binds.
  destruct (conn (env s)) as [c|] eqn:Hconn; binds.
  - repeat split; auto.
  - unfold engine_call, perform; binds.
    destruct (engine (trace s) initialize_db) as [e|c]; binds;
      repeat split; auto; congruence.
Qed.

Lemma notify_closed_kept_open : lasting kept_open (notify_closed engine).
Proof.
  intros s Hk; unfold notify_closed; binds.
  rewrite Hk, andb_false_r; repeat split; auto.
Qed.

Lemma execute_kept_open (w : DuckDBCursorWrapper) (sql : string)
    (bindings : option (list (option string))) :
  lasting kept_open (DuckDBCursorWrapper_execute engine w sql bindings).
Proof.
  unfold DuckDBCursorWrapper_execute, engine_call; lasting_steps;
    apply perform_kept_open; reflexivity.
Qed.

Lemma handle_kept_open : lasting kept_open (handle engine).
Proof.
  unfold handle; apply lasting_bind; [apply handle_locked_kept_open|].
  intros _; unfold handle_cursor, engine_call; lasting_steps;
    apply perform_kept_open; reflexivity.
Qed.

Lemma wrapper_close_kept_open (w : DuckDBConnectionWrapper) :
  lasting kept_open (DuckDBConnectionWrapper_close engine w).
Proof.
  unfold DuckDBConnectionWrapper_close; apply lasting_bind;
    [|intros _; apply notify_closed_kept_open].
  apply perform_kept_open; reflexivity.
Qed.

Hint Resolve handle_kept_open wrapper_close_kept_open execute_kept_open
  : lasting.

Lemma load_source_kept_open (plugin_name : string)
    (source_config : SourceConfig) :
  lasting kept_open (load_source engine plugin_name source_config).
Proof.
  unfold load_source, DuckDBCursorWrapper_register,
    DuckDBCursorWrapper_close, fetchone_0, engine_call.
  lasting_steps;
    try (apply perform_kept_open; reflexivity);
    apply lasting_set_self; intros ? ?; repeat split; auto.
Qed.

Hint Resolve load_source_kept_open : lasting.

Lemma store_relation_kept_open (plugin_name : string)
    (target_config : TargetConfig) :
  lasting kept_open (store_relation engine plugin_name target_config).
Proof.
  unfold store_relation, DuckDBCursorWrapper_sql, DuckDBCursorWrapper_close,
    engine_call.
  lasting_steps; apply perform_kept_open; reflexivity.
Qed.

Lemma run_kept_open (sched : list Step) (ws : gmap nat DuckDBConnectionWrapper) :
  lasting kept_open (run engine sched ws).
Proof.
  revert ws; induction sched as [|st sched IH]; intros ws; simpl.
  - apply lasting_ret.
  - apply lasting_bind; [|intros ws'; apply IH].
    destruct st; simpl.
    + apply lasting_bind; [apply handle_locked_kept_open|].
      intros _; apply lasting_ret.
    + apply lasting_bind; [|intros w; apply lasting_ret].
      unfold handle_cursor, engine_call; lasting_steps;
        apply perform_kept_open; reflexivity.
    + unfold DuckDBCursorWrapper_close, engine_call; lasting_steps;
        apply perform_kept_open; reflexivity.
    + apply lasting_bind; [apply notify_closed_kept_open|].
      intros _; apply lasting_ret.
Qed.

(** X8: with the keep-open flag, [load_source], [store_relation] and every
    schedule of [handle] and [close] steps leave the flag on, never ask the
    engine to close the shared handle, and keep a shared handle that was
    there, whether they return or raise. *)
Theorem keep_open_never_closes (plugin_name : string)
    (source_config : SourceConfig) (target_config : TargetConfig)
    (sched : list Step) (ws : gmap nat DuckDBConnectionWrapper) (s s' : St) :
  _keep_open (env s) = true →
  s' = (load_source engine plugin_name source_config s).2
  ∨ s' = (store_relation engine plugin_name target_config s).2
  ∨ s' = (run engine sched ws s).2 →
  _keep_open (env s') = true
  ∧ db_closed (trace s') = db_closed (trace s)
  ∧ (conn (env s) ≠ None → conn (env s') = conn (env s)).
Proof.
  intros Hk [->|[->| ->]].
  - apply load_source_kept_open; assumption.
  - apply store_relation_kept_open; assumption.
  - apply run_kept_open; assumption.
Qed.

(** X9: an environment made for the path [:memory:], for MotherDuck, or
    with [keep_open] set never has its shared handle closed by a schedule
    of [handle] and [close] steps, however many handles are taken and
    closed. *)
Theorem memory_database_stays_open (credentials : DuckDBCredentials)
    (plugins : list (string * Plugin)) (sched : list Step)
    (ws : gmap nat DuckDBConnectionWrapper) :
  keep_open credentials = true ∨ path credentials = ":memory:"
  ∨ is_motherduck credentials = true →
  let s0 := {| env := __init__ credentials plugins; trace := [] |} in
  db_closed (trace (run engine sched ws s0).2) = 0%nat.
Proof.
  intros Hcred s0.
  assert (_keep_open (env s0) = true) as Hk.
  { simpl; destruct Hcred as [->|[->| ->]]; simpl;
      rewrite ?orb_true_r; reflexivity. }
  destruct (run_kept_open sched ws s0 Hk) as (_ & Hcl & _).
  exact Hcl.
Qed.

End KeptOpen.

Section WhileCounted.

Variable engine : Engine.

Lemma handle_locked_counted :
  stable (keeps conn_while_counted) (handle_locked engine).
Proof.
  intros s HJ; unfold handle_locked; binds.
  destruct (conn (env s)) as [c|] eqn:Hconn; binds.
  - intros _; simpl; congruence.
  - unfold engine_call, perform; binds.
    destruct (engine (trace s) initialize_db) as [e|c]; binds.
    + exact HJ.
    + intros _; discriminate.
Qed.

Lemma notify_closed_counted :
  stable (keeps conn_while_counted) (notify_closed engine).
Proof.
  intros s HJ; unfold notify_closed; binds.
  destruct ((handle_count (env s) - 1 =? 0) && negb (_keep_open (env s)))
    eqn:Hlast.
  - apply andb_true_iff in Hlast as [Hz _]; apply Z.eqb_eq in Hz.
    unfold close; binds.
    destruct (conn (env s)) as [c|] eqn:Hconn; binds.
    + unfold engine_call, perform; binds; simpl.
      destruct (engine (trace s) (conn_close c)) as [e|[]]; simpl;
        intros Hpos; simpl in Hpos; lia.
    + intros Hpos; simpl in Hpos; lia.
  - intros Hpos; simpl in *; apply HJ; lia.
Qed.

Hint Resolve handle_locked_counted notify_closed_counted : stable.

Ltac counted_assignments :=
  apply stable_set_self; intros ? HJ Hpos; apply HJ; exact Hpos.

Lemma handle_counted : stable (keeps conn_while_counted) (handle engine).
Proof. unfold handle, handle_cursor, engine_call; stable_steps. Qed.

Lemma wrapper_close_counted (w : DuckDBConnectionWrapper) :
  stable (keeps conn_while_counted) (DuckDBConnectionWrapper_close engine w).
Proof.
  unfold DuckDBConnectionWrapper_close, DuckDBCursorWrapper_close,
    engine_call; stable_steps.
Qed.

Hint Resolve handle_counted wrapper_close_counted : stable.

Lemma load_source_counted (plugin_name : string)
    (source_config : SourceConfig) :
  stable (keeps conn_while_counted)
    (load_source engine plugin_name source_config).
Proof.
  unfold load_source, DuckDBCursorWrapper_register,
    DuckDBCursorWrapper_close, DuckDBCursorWrapper_execute, fetchone_0,
    engine_call.
  stable_steps; counted_assignments.
Qed.

Hint Resolve load_source_counted : stable.

Lemma store_relation_counted (plugin_name : string)
    (target_config : TargetConfig) :
  stable (keeps conn_while_counted)
    (store_relation engine plugin_name target_config).
Proof.
  unfold store_relation, DuckDBCursorWrapper_sql, DuckDBCursorWrapper_close,
    engine_call.
  stable_steps.
Qed.

Lemma run_counted (sched : list Step) (ws : gmap nat DuckDBConnectionWrapper) :
  stable (keeps conn_while_counted) (run engine sched ws).
Proof.
  revert ws; induction sched as [|st sched IH]; intros ws; simpl.
  - apply stable_ret.
  - apply stable_bind; [|intros ws'; apply IH].
    destruct st; simpl;
      unfold handle_cursor, DuckDBCursorWrapper_close, engine_call;
      stable_steps.
Qed.

(** X10: while [handle_count] is above 0 there is a shared handle.  When
    this is so before [load_source], [store_relation] or a schedule of
    [handle] and [close] steps, it is so afterwards, whether they return
    or raise. *)
Theorem conn_while_counted_kept (plugin_name : string)
    (source_config : SourceConfig) (target_config : TargetConfig)
    (sched : list Step) (ws : gmap nat DuckDBConnectionWrapper) (s : St) :
  conn_while_counted (env s) →
  conn_while_counted
    (env (load_source engine plugin_name source_config s).2)
  ∧ conn_while_counted
      (env (store_relation engine plugin_name target_config s).2)
  ∧ conn_while_counted (env (run engine sched ws s).2).
Proof.
  intros HJ; split; [|split].
  - apply (load_source_counted plugin_name source_config s HJ).
  - apply (store_relation_counted plugin_name target_config s HJ).
  - apply (run_counted sched ws s HJ).
Qed.

End WhileCounted.

Global Instance agree_preorder {B : Type} (f : LocalEnvironment → B) :
  PreOrder (agree f).
Proof.
  split; [intros e; reflexivity|].
  intros e1 e2 e3 H1 H2; unfold agree in *; congruence.
Qed.

(** ** The path of [load_source] that materializes *)

Section Materialize.

Variable engine : Engine.

(** What a returning [notify_closed] did, to the letter. *)
Lemma notify_closed_exact (s s' : St) :
  notify_closed engine s = (Return tt, s') →
  let last :=
    (handle_count (env s) - 1 =? 0) && negb (_keep_open (env s)) in
  env s'
  = (if last then set_conn None else id)
      (set_handle_count (handle_count (env s) - 1) (env s))
  ∧ trace s'
    = (if last
       then match conn (env s) with
            | Some c => [ok (conn_close c)]
            | None => []
            end
       else []) ++ trace s.
Proof.
  unfold notify_closed; binds.
  destruct ((handle_count (env s) - 1 =? 0) && negb (_keep_open (env s))).
  - unfold close; binds.
    destruct (conn (env s)) as [c|] eqn:Hconn; binds.
    + unfold engine_call, perform; binds; simpl.
      destruct (engine (trace s) (conn_close c)) as [e|[]]; simpl;
        [discriminate|].
      intros [= <-]; split; reflexivity.
    + intros [= <-]; split; [|reflexivity].
      destruct (env s); simpl in *; subst; reflexivity.
  - intros [= <-]; split; reflexivity.
Qed.

Lemma materialize_Return (plugin : Plugin) (source_config : SourceConfig)
    (h : DuckDBConnectionWrapper) (df : DataFrame) (s s' : St) :
  materialize engine plugin source_config h df s = (Return tt, s') →
  let cur := _cursor (cursor h) in
  let last :=
    (handle_count (env s) - 1 =? 0) && negb (_keep_open (env s)) in
  let cache :=
    if String.eqb (materialization plugin source_config) "view"
    then <[df_name source_config := df]> (_REGISTERED_DF (env s))
    else _REGISTERED_DF (env s) in
  env s'
  = (if last then set_conn None else id)
      (set_handle_count (handle_count (env s) - 1)
         (set_REGISTERED_DF cache (env s)))
  ∧ trace s'
    = (if last
       then match conn (env s) with
            | Some c => [ok (conn_close c)]
            | None => []
            end
       else [])
      ++ [ok (cursor_close cur); ok (cursor_close cur);
          ok (cursor_execute cur (create_statement plugin source_config) None);
          ok (cursor_register cur (df_name source_config) df)]
      ++ trace s.
Proof.
  unfold materialize; cbv zeta; intros H.
  apply bind_Return_inv in H as ([] & s1 & Hreg & H).
  apply bind_Return_inv in H as ([] & s2 & Hcache & H).
  apply bind_Return_inv in H as (r & s3 & Hexec & H).
  apply bind_Return_inv in H as ([] & s4 & Hclose & H).
  unfold DuckDBConnectionWrapper_close in H.
  apply bind_Return_inv in H as ([] & s5 & Hclose' & H).
  unfold DuckDBCursorWrapper_register, DuckDBCursorWrapper_close, engine_call
    in *.
  apply perform_Return in Hreg as (_ & ->).
  apply execute_Return in Hexec as (_ & ->).
  apply perform_Return in Hclose as (_ & ->).
  apply perform_Return in Hclose' as (_ & ->).
  apply notify_closed_exact in H as (Henv & Htrace).
  fold (materialization plugin source_config) in *.
  fold (df_name source_config) in *.
  fold (create_statement plugin source_config) in *.
  rewrite Henv, Htrace; clear Henv Htrace.
  destruct (String.eqb (materialization plugin source_config) "view");
    injection Hcache as <-; simpl; split; try reflexivity.
  all: destruct (env s); reflexivity.
Qed.

Lemma handle_cache : stable (agree _REGISTERED_DF) (handle engine).
Proof.
  unfold handle, handle_locked, handle_cursor, engine_call; stable_steps;
    apply stable_set_self; intros ?; reflexivity.
Qed.

Lemma check_existing_stable_eq (cur : DuckDBCursorWrapper)
    (source_config : SourceConfig) :
  stable eq (check_existing engine cur source_config).
Proof.
  unfold check_existing, relation_exists, fetchone_0.
  stable_steps; apply execute_stable.
Qed.

(** The environment after a returning [acquire]. *)
Lemma acquire_env (source_config : SourceConfig) (s s1 : St)
    (h : DuckDBConnectionWrapper) :
  acquire engine source_config s = (Return h, s1) →
  handle_count (env s1) = handle_count (env s) + 1
  ∧ _keep_open (env s1) = _keep_open (env s)
  ∧ _REGISTERED_DF (env s1) = _REGISTERED_DF (env s)
  ∧ conn (env s1) ≠ None.
Proof.
  unfold acquire; intros H.
  apply bind_Return_inv in H as (h' & s' & Hh & H).
  apply bind_Return_inv in H as ([] & s2 & Hschema & H).
  injection H as -> ->.
  assert (env s1 = env s') as ->.
  { destruct (truthy (schema source_config)).
    - apply bind_Return_inv in Hschema as (r & s3 & Hx & Hret).
      injection Hret as <-.
      apply execute_Return in Hx as (_ & ->); reflexivity.
    - injection Hschema as <-; reflexivity. }
  pose proof (handle_cache s) as Hcache; rewrite Hh in Hcache.
  apply handle_Return in Hh as (Hc & Hk & _ & _ & Hconn).
  repeat split; try assumption.
  destruct (conn (env s)); destruct Hconn as [Hconn _]; congruence.
Qed.

(** What a [load_source] that got past the existence check and returned
    has done. *)
Lemma load_source_past_check (plugin_name : string)
    (source_config : SourceConfig) (plugin : Plugin)
    (h : DuckDBConnectionWrapper) (s s1 s2 s3 : St) :
  dict_get plugin_name (_plugins (env s)) = Some plugin →
  acquire engine source_config s = (Return h, s1) →
  check_existing engine (cursor h) source_config s1 = (Return false, s2) →
  load_source engine plugin_name source_config s = (Return tt, s3) →
  ∃ df,
    load plugin (trace s2) source_config = inr (Some df)
    ∧ materialize engine plugin source_config h df
        (logged (plugin_load plugin_name source_config) true s2)
      = (Return tt, s3)
    ∧ env s2 = env s1.
Proof.
  intros Hplugin Hacq Hcheck Hload.
  rewrite load_source_parts, Hplugin in Hload.
  rewrite (bind_Return _ _ _ _ _ Hacq), (bind_Return _ _ _ _ _ Hcheck)
    in Hload.
  unfold load_step in Hload.
  apply bind_Return_inv in Hload as (df & s' & Hperf & Hload).
  apply perform_Return in Hperf as (Hdf & ->).
  destruct df as [df|]; [|discriminate].
  exists df; repeat split; try assumption.
  pose proof (check_existing_stable_eq (cursor h) source_config s1) as He.
  rewrite Hcheck in He; symmetry; exact He.
Qed.

(** X11: a [load_source] that gets past the existence check and returns
    has released what it took: [handle_count] is at its value before the
    call.  Since the check it has called, in this order, the plugin's
    [load], [register], the create-or-replace statement, and [close] on its
    cursor twice; and when no other handle was out and the keep-open flag is
    off, it has then closed the shared handle, which is [None]
    afterwards. *)
Theorem load_source_releases (plugin_name : string)
    (source_config : SourceConfig) (plugin : Plugin)
    (h : DuckDBConnectionWrapper) (s s1 s2 s3 : St) :
  dict_get plugin_name (_plugins (env s)) = Some plugin →
  acquire engine source_config s = (Return h, s1) →
  check_existing engine (cursor h) source_config s1 = (Return false, s2) →
  load_source engine plugin_name source_config s = (Return tt, s3) →
  let cur := _cursor (cursor h) in
  handle_count (env s3) = handle_count (env s)
  ∧ ∃ df tail,
      trace s3
      = tail
        ++ [ok (cursor_close cur); ok (cursor_close cur);
            ok (cursor_execute cur (create_statement plugin source_config)
                  None);
            ok (cursor_register cur (df_name source_config) df);
            ok (plugin_load plugin_name source_config)]
        ++ trace s2
      ∧ if (handle_count (env s) =? 0) && negb (_keep_open (env s))
        then conn (env s3) = None
             ∧ ∃ c, conn (env s1) = Some c ∧ tail = [ok (conn_close c)]
        else conn (env s3) = conn (env s1) ∧ tail = [].
Proof.
  intros Hplugin Hacq Hcheck Hload cur.
  destruct (load_source_past_check _ _ _ _ _ _ _ _ Hplugin Hacq Hcheck Hload)
    as (df & _ & Hmat & Henv).
  apply acquire_env in Hacq as (Hcount & Hkeep & _ & Hconn).
  apply materialize_Return in Hmat as (He3 & Ht3); simpl in He3, Ht3.
  rewrite Henv, Hcount, Hkeep in He3, Ht3.
  replace (handle_count (env s) + 1 - 1) with (handle_count (env s))
    in He3, Ht3 by lia.
  split.
  - rewrite He3.
    destruct ((handle_count (env s) =? 0) && negb (_keep_open (env s)));
      simpl; reflexivity.
  - exists df; eexists; split; [exact Ht3|].
    rewrite He3.
    destruct ((handle_count (env s) =? 0) && negb (_keep_open (env s))).
    + split; [reflexivity|].
      destruct (conn (env s1)) as [c|]; [|congruence].
      exists c; split; reflexivity.
    + split; reflexivity.
Qed.

(** The cache after a [load_source] that got past the check and
    returned. *)
Lemma load_source_cache (plugin_name : string)
    (source_config : SourceConfig) (plugin : Plugin)
    (h : DuckDBConnectionWrapper) (s s1 s2 s3 : St) :
  dict_get plugin_name (_plugins (env s)) = Some plugin →
  acquire engine source_config s = (Return h, s1) →
  check_existing engine (cursor h) source_config s1 = (Return false, s2) →
  load_source engine plugin_name source_config s = (Return tt, s3) →
  ∃ df,
    load plugin (trace s2) source_config = inr (Some df)
    ∧ _REGISTERED_DF (env s3)
      = if String.eqb (materialization plugin source_config) "view"
        then <[df_name source_config := df]> (_REGISTERED_DF (env s))
        else _REGISTERED_DF (env s).
Proof.
  intros Hplugin Hacq Hcheck Hload.
  destruct (load_source_past_check _ _ _ _ _ _ _ _ Hplugin Hacq Hcheck Hload)
    as (df & Hdf & Hmat & Henv).
  apply acquire_env in Hacq as (_ & _ & Hcache & _).
  apply materialize_Return in Hmat as (He3 & _); simpl in He3.
  exists df; split; [assumption|].
  rewrite He3, Henv, Hcache.
  destruct ((handle_count (env s1) - 1 =? 0) && negb (_keep_open (env s1)));
    reflexivity.
Qed.

(** X12: a [load_source] that gets past the existence check and returns
    has bound the dataframe in the cache of registered dataframes under the
    generated name when the materialization is [view], and has left the
    cache as it was for every other materialization. *)
Theorem load_source_view_registers (plugin_name : string)
    (source_config : SourceConfig) (plugin : Plugin)
    (h : DuckDBConnectionWrapper) (s s1 s2 s3 : St) :
  dict_get plugin_name (_plugins (env s)) = Some plugin →
  acquire engine source_config s = (Return h, s1) →
  check_existing engine (cursor h) source_config s1 = (Return false, s2) →
  load_source engine plugin_name source_config s = (Return tt, s3) →
  ∃ df,
    load plugin (trace s2) source_config = inr (Some df)
    ∧ _REGISTERED_DF (env s3)
      = if String.eqb (materialization plugin source_config) "view"
        then <[df_name source_config := df]> (_REGISTERED_DF (env s))
        else _REGISTERED_DF (env s).
Proof. apply load_source_cache. Qed.

(** X13: after such a [load_source] with the materialization [view], the
    next [handle] that returns has initialized its cursor with a cache in
    which the generated name is bound to the dataframe: the view is bound
    again on the new cursor without a second [load_source]. *)
Theorem view_bound_on_next_cursor (plugin_name : string)
    (source_config : SourceConfig) (plugin : Plugin)
    (h w : DuckDBConnectionWrapper) (s s1 s2 s3 s4 : St) :
  dict_get plugin_name (_plugins (env s)) = Some plugin →
  acquire engine source_config s = (Return h, s1) →
  check_existing engine (cursor h) source_config s1 = (Return false, s2) →
  load_source engine plugin_name source_config s = (Return tt, s3) →
  materialization plugin source_config = "view" →
  handle engine s3 = (Return w, s4) →
  ∃ df raw cache,
    load plugin (trace s2) source_config = inr (Some df)
    ∧ head (trace s4) = Some (ok (initialize_cursor raw cache))
    ∧ cache !! df_name source_config = Some df.
Proof.
  intros Hplugin Hacq Hcheck Hload Hview Hh.
  destruct (load_source_cache _ _ _ _ _ _ _ _
              Hplugin Hacq Hcheck Hload) as (df & Hdf & Hcache).
  rewrite Hview in Hcache; simpl in Hcache.
  unfold handle in Hh.
  apply bind_Return_inv in Hh as ([] & s' & Hl & Hc).
  assert (_REGISTERED_DF (env s') = _REGISTERED_DF (env s3)) as Hkeep.
  { assert (stable (agree _REGISTERED_DF) (handle_locked engine)) as Hst
      by (unfold handle_locked, engine_call; stable_steps;
          apply stable_set_self; intros ?; reflexivity).
    specialize (Hst s3); rewrite Hl in Hst; exact Hst. }
  revert Hc; unfold handle_cursor; binds.
  destruct (conn (env s')) as [c|]; [|discriminate].
  unfold engine_call, perform; binds; repeat (ask; binds).
  intros [= _ <-]; simpl.
  exists df; eexists; eexists; split; [assumption|].
  split; [reflexivity|].
  rewrite Hkeep, Hcache; apply lookup_insert_eq.
Qed.

End Materialize.

(** ** Other paths of [load_source] and [store_relation] *)

Section Paths.

Variable engine : Engine.

(** X14: a source config without [save_mode] in its metadata, or with a
    mode other than [ignore] and [error_if_exists], makes [load_source] go
    from the handle straight to the plugin's [load]: the catalog is not
    asked, and a relation that is there is replaced. *)
Theorem load_source_overwrite_skips_check (plugin_name : string)
    (source_config : SourceConfig) (plugin : Plugin)
    (h : DuckDBConnectionWrapper) (s s1 : St) :
  dict_get plugin_name (_plugins (env s)) = Some plugin →
  dict_get "save_mode" (meta source_config) = None
  ∨ (∃ mode, dict_get "save_mode" (meta source_config) = Some mode
             ∧ mode ≠ "ignore" ∧ mode ≠ "error_if_exists") →
  acquire engine source_config s = (Return h, s1) →
  check_existing engine (cursor h) source_config s1 = (Return false, s1)
  ∧ load_source engine plugin_name source_config s
    = load_step engine plugin_name plugin source_config h s1.
Proof.
  intros Hplugin Hmode Hacq.
  assert (check_existing engine (cursor h) source_config s1
          = (Return false, s1)) as Hcheck.
  { unfold check_existing, SourceConfig_get.
    destruct Hmode as [->|(mode & -> & Hi & He)]; [reflexivity|].
    destruct (String.eqb_spec mode "ignore"); [congruence|].
    destruct (String.eqb_spec mode "error_if_exists"); [congruence|].
    reflexivity. }
  split; [exact Hcheck|].
  rewrite load_source_parts, Hplugin.
  rewrite (bind_Return _ _ _ _ _ Hacq), (bind_Return _ _ _ _ _ Hcheck).
  reflexivity.
Qed.

(** X15: a runtime failure of the engine in the catalog query of
    [load_source] comes out as [DbtRuntimeError] with the same text, the
    handle still held; a failure in [register], which the cursor wrapper
    forwards as it is, comes out as the engine raised it, a [RuntimeError]
    too. *)
Theorem load_source_engine_failures (plugin_name : string)
    (source_config : SourceConfig) (plugin : Plugin)
    (h : DuckDBConnectionWrapper) (s s1 : St) :
  dict_get plugin_name (_plugins (env s)) = Some plugin →
  acquire engine source_config s = (Return h, s1) →
  let cur := _cursor (cursor h) in
  let select :=
    cursor_execute cur (catalog_lookup source_config).1
      (Some (catalog_lookup source_config).2) in
  (∀ mode cls m,
     dict_get "save_mode" (meta source_config) = Some mode →
     mode = "ignore" ∨ mode = "error_if_exists" →
     engine (trace s1) select = inl (mkExc cls m) →
     is_RuntimeError cls = true →
     load_source engine plugin_name source_config s
     = (Raise (DbtRuntimeError m), logged select false s1)
     ∧ handle_count (env (logged select false s1))
       = handle_count (env s) + 1)
  ∧ (∀ s2 df e,
       check_existing engine (cursor h) source_config s1 = (Return false, s2) →
       load plugin (trace s2) source_config = inr (Some df) →
       let s3 := logged (plugin_load plugin_name source_config) true s2 in
       let register := cursor_register cur (df_name source_config) df in
       engine (trace s3) register = inl e →
       load_source engine plugin_name source_config s
       = (Raise e, logged register false s3)).
Proof.
  intros Hplugin Hacq cur select; split.
  - intros mode cls m Hmode Hin Hraise Hcls.
    rewrite load_source_parts, Hplugin, (bind_Return _ _ _ _ _ Hacq).
    split; [|apply acquire_env in Hacq as (Hc & _); exact Hc].
    rewrite bind_run; unfold check_existing, SourceConfig_get.
    rewrite Hmode.
    replace (String.eqb mode "ignore" || String.eqb mode "error_if_exists")
      with true
      by (destruct Hin as [->| ->]; reflexivity).
    unfold relation_exists; rewrite bind_run.
    unfold DuckDBCursorWrapper_execute, try_except_RuntimeError, engine_call,
      perform.
    fold cur; fold select; rewrite Hraise; simpl; rewrite Hcls; reflexivity.
  - intros s2 df e Hcheck Hload s3 register Hraise.
    rewrite load_source_parts, Hplugin.
    rewrite (bind_Return _ _ _ _ _ Hacq), (bind_Return _ _ _ _ _ Hcheck).
    unfold load_step, perform at 1; rewrite bind_run, Hload.
    unfold materialize; cbv zeta; rewrite bind_run.
    unfold DuckDBCursorWrapper_register, engine_call, perform.
    fold (df_name source_config); fold s3; fold cur; fold register.
    rewrite Hraise; reflexivity.
Qed.

(** X16: on a plugin that is not upstream-referenceable [store_relation]
    is the export and nothing else, whatever the outcome: no source config
    is made and [load_source] is not called; and when it returns, the
    handle it took is given back. *)
Theorem store_relation_without_upstream (plugin_name : string)
    (target_config adapted : TargetConfig) (plugin : Plugin) (s : St) :
  dict_get plugin_name (_plugins (env s)) = Some plugin →
  adapt_target_config plugin target_config = inr adapted →
  can_be_upstream_referenced plugin = false →
  store_relation engine plugin_name target_config s
  = export engine plugin_name plugin adapted s
  ∧ (∀ s1, store_relation engine plugin_name target_config s
           = (Return tt, s1) →
           handle_count (env s1) = handle_count (env s)).
Proof.
  intros Hplugin Hadapt Hup.
  assert (store_relation engine plugin_name target_config s
          = export engine plugin_name plugin adapted s) as Heq.
  { rewrite store_relation_parts, Hplugin, Hadapt, bind_run; simpl.
    rewrite bind_run, Hup.
    destruct (export engine plugin_name plugin adapted s) as [[[]|e] s1];
      reflexivity. }
  split; [exact Heq|].
  intros s1; rewrite Heq; apply export_Return.
Qed.

(** X17: when the plugin's [adapt_target_config] raises, [store_relation]
    raises the same before it takes a handle, the state untouched; when the
    engine fails on the compiled query, [store_relation] raises what the
    engine raised, a [RuntimeError] too, and the handle it took stays
    counted. *)
Theorem store_relation_failures (plugin_name : string)
    (target_config : TargetConfig) (plugin : Plugin) (s : St) :
  dict_get plugin_name (_plugins (env s)) = Some plugin →
  (∀ e, adapt_target_config plugin target_config = inl e →
        store_relation engine plugin_name target_config s = (Raise e, s))
  ∧ (∀ adapted h s1 e,
       adapt_target_config plugin target_config = inr adapted →
       handle engine s = (Return h, s1) →
       let sql := cursor_sql (_cursor (cursor h)) (compiled_code adapted) in
       engine (trace s1) sql = inl e →
       store_relation engine plugin_name target_config s
       = (Raise e, logged sql false s1)
       ∧ handle_count (env (logged sql false s1))
         = handle_count (env s) + 1).
Proof.
  intros Hplugin; split.
  - intros e Hadapt.
    rewrite store_relation_parts, Hplugin, Hadapt; reflexivity.
  - intros adapted h s1 e Hadapt Hh sql Hraise.
    split; [|apply handle_Return in Hh as (Hc & _); exact Hc].
    rewrite store_relation_parts, Hplugin, Hadapt, bind_run; simpl.
    rewrite bind_run; unfold export.
    rewrite (bind_Return _ _ _ _ _ Hh), bind_run.
    unfold DuckDBCursorWrapper_sql, engine_call, perform.
    fold sql; rewrite Hraise; reflexivity.
Qed.

End Paths.

(** ** The theorems above at work in the small world *)

Lemma keep_open_never_closes_witness :
  let eng := Demo.engine 0 in
  let s := Demo.fresh true (Demo.registry false (Some (Df 7))) in
  let s' := (load_source eng "mem" (Demo.source "overwrite") s).2 in
  _keep_open (env s') = true
  ∧ db_closed (trace s') = db_closed (trace s)
  ∧ (conn (env s) ≠ None → conn (env s') = conn (env s)).
Proof.
  intros eng s s'.
  apply (keep_open_never_closes eng "mem" (Demo.source "overwrite")
           Demo.target [] ∅ s s').
  - reflexivity.
  - left; reflexivity.
Defined.

Lemma memory_database_stays_open_witness :
  let credentials :=
    {| keep_open := false; path := ":memory:"; is_motherduck := false |} in
  let s0 := {| env := __init__ credentials []; trace := [] |} in
  let sched :=
    [lock_section 0; make_cursor 0; close_cursor 0; notify 0]%nat in
  db_closed (trace (run (Demo.engine 0) sched ∅ s0).2) = 0%nat.
Proof.
  intros credentials s0 sched.
  apply (memory_database_stays_open (Demo.engine 0) credentials [] sched ∅).
  right; left; reflexivity.
Defined.

Lemma conn_while_counted_kept_witness :
  let eng := Demo.engine 1 in
  let s := Demo.fresh false (Demo.registry false (Some (Df 7))) in
  conn_while_counted (env (load_source eng "mem" (Demo.source "ignore") s).2).
Proof.
  intros eng s.
  apply (conn_while_counted_kept eng "mem" (Demo.source "ignore")
           Demo.target [] ∅ s).
  intros Hpos; simpl in Hpos; lia.
Defined.

Lemma load_source_releases_witness :
  let eng := Demo.engine 0 in
  let s := Demo.fresh false (Demo.registry false (Some (Df 7))) in
  let s3 := (load_source eng "mem" (World.source "view") s).2 in
  handle_count (env s3) = handle_count (env s).
Proof.
  intros eng s s3.
  destruct (load_source_releases eng "mem" (World.source "view")
              (Demo.plugin false (Some (Df 7)))
              {| cursor := {| _cursor := 1%nat |} |} s
              (acquire eng (World.source "view") s).2
              (acquire eng (World.source "view") s).2 s3)
    as [H _]; [reflexivity ..|exact H].
Defined.

Lemma load_source_view_registers_witness :
  let eng := Demo.engine 0 in
  let s := Demo.fresh false (Demo.registry false (Some (Df 7))) in
  let s2 := (acquire eng (World.source "view") s).2 in
  let s3 := (load_source eng "mem" (World.source "view") s).2 in
  ∃ df,
    load (Demo.plugin false (Some (Df 7))) (trace s2) (World.source "view")
    = inr (Some df)
    ∧ _REGISTERED_DF (env s3)
      = <["db_main_t1_df" := df]> (_REGISTERED_DF (env s)).
Proof.
  intros eng s s2 s3.
  apply (load_source_view_registers eng "mem" (World.source "view")
           (Demo.plugin false (Some (Df 7)))
           {| cursor := {| _cursor := 1%nat |} |} s s2 s2 s3);
    reflexivity.
Defined.

Lemma view_bound_on_next_cursor_witness :
  let eng := Demo.engine 0 in
  let s := Demo.fresh false (Demo.registry false (Some (Df 7))) in
  let s2 := (acquire eng (World.source "view") s).2 in
  let s3 := (load_source eng "mem" (World.source "view") s).2 in
  let s4 := (handle eng s3).2 in
  ∃ df raw cache,
    load (Demo.plugin false (Some (Df 7))) (trace s2) (World.source "view")
    = inr (Some df)
    ∧ head (trace s4) = Some (ok (initialize_cursor raw cache))
    ∧ cache !! df_name (World.source "view") = Some df.
Proof.
  intros eng s s2 s3 s4.
  apply (view_bound_on_next_cursor eng "mem" (World.source "view")
           (Demo.plugin false (Some (Df 7)))
           {| cursor := {| _cursor := 1%nat |} |}
           {| cursor := {| _cursor := 11%nat |} |} s s2 s2 s3 s4);
    reflexivity.
Defined.

Lemma load_source_overwrite_skips_check_witness :
  let eng := Demo.engine 1 in
  let plugin := Demo.plugin false None in
  let s := Demo.fresh false (Demo.registry false None) in
  let h := {| cursor := {| _cursor := 1%nat |} |} in
  let s1 := (acquire eng (World.source "table") s).2 in
  check_existing eng (cursor h) (World.source "table") s1 = (Return false, s1)
  ∧ load_source eng "mem" (World.source "table") s
    = load_step eng "mem" plugin (World.source "table") h s1.
Proof.
  intros eng plugin s h s1.
  apply (load_source_overwrite_skips_check eng "mem" (World.source "table")
           plugin h s s1).
  - reflexivity.
  - left; reflexivity.
  - reflexivity.
Defined.

Lemma load_source_engine_failures_witness :
  let e := mkExc RuntimeError "Catalog Error: system does not exist" in
  let h := {| cursor := {| _cursor := 1%nat |} |} in
  let s := Demo.fresh false (Demo.registry false (Some (Df 7))) in
  (let eng := World.failing_at World.at_select e in
   let s1 := (acquire eng (Demo.source "ignore") s).2 in
   let select :=
     cursor_execute 1%nat (catalog_lookup (Demo.source "ignore")).1
       (Some (catalog_lookup (Demo.source "ignore")).2) in
   load_source eng "mem" (Demo.source "ignore") s
   = (Raise (DbtRuntimeError "Catalog Error: system does not exist"),
      logged select false s1)
   ∧ handle_count (env (logged select false s1)) = handle_count (env s) + 1)
  ∧ (let eng := World.failing_at World.at_cursor_register e in
     let s2 := (acquire eng (World.source "table") s).2 in
     let s3 := logged (plugin_load "mem" (World.source "table")) true s2 in
     load_source eng "mem" (World.source "table") s
     = (Raise e,
        logged (cursor_register 1%nat (df_name (World.source "table")) (Df 7))
          false s3)).
Proof.
  intros e h s; split.
  - intros eng s1 select.
    apply (proj1 (load_source_engine_failures eng "mem" (Demo.source "ignore")
                    (Demo.plugin false (Some (Df 7))) h s s1
                    eq_refl eq_refl)
             "ignore" RuntimeError "Catalog Error: system does not exist");
      [reflexivity | left; reflexivity | reflexivity | reflexivity].
  - intros eng s2 s3.
    apply (proj2 (load_source_engine_failures eng "mem" (World.source "table")
                    (Demo.plugin false (Some (Df 7))) h s s2
                    eq_refl eq_refl)
             s2 (Df 7) e);
      reflexivity.
Defined.

Lemma store_relation_without_upstream_witness :
  let eng := Demo.engine 0 in
  let plugin := Demo.plugin false (Some (Df 7)) in
  let s := Demo.fresh false (Demo.registry false (Some (Df 7))) in
  store_relation eng "mem" Demo.target s
  = export eng "mem" plugin Demo.target s
  ∧ (∀ s1, store_relation eng "mem" Demo.target s = (Return tt, s1) →
           handle_count (env s1) = handle_count (env s)).
Proof.
  intros eng plugin s.
  apply (store_relation_without_upstream eng "mem" Demo.target Demo.target
           plugin s); reflexivity.
Defined.

Lemma store_relation_failures_witness :
  let e := mkExc RuntimeError "Parser Error: syntax error" in
  let eng := World.failing_at World.at_cursor_sql e in
  let s := Demo.fresh false (Demo.registry false (Some (Df 7))) in
  let s1 := (handle eng s).2 in
  let sql := cursor_sql 1%nat (compiled_code Demo.target) in
  store_relation eng "mem" Demo.target s = (Raise e, logged sql false s1)
  ∧ handle_count (env (logged sql false s1)) = handle_count (env s) + 1.
Proof.
  intros e eng s s1 sql.
  apply (proj2 (store_relation_failures eng "mem" Demo.target
                  (Demo.plugin false (Some (Df 7))) s eq_refl)
           Demo.target {| cursor := {| _cursor := 1%nat |} |} s1 e);
    reflexivity.
Defined.

(** ** More on schedules *)

Section Schedules.

Variable engine : Engine.

(** X18: in a schedule that at no point has closed more handles than were
    taken, with handles taken and closed in any order, [handle_count] is 0
    or above after every prefix that returns, and [handle_count = 0]
    without keep-open means that there is no shared handle. *)
Theorem balanced_schedule_invariant (sched : list Step)
    (ws : gmap nat DuckDBConnectionWrapper) (s : St) :
  0 ≤ handle_count (env s) →
  (handle_count (env s) = 0 → _keep_open (env s) = false →
   conn (env s) = None) →
  balanced (Z.to_nat (handle_count (env s))) sched = true →
  ∀ k wk sk,
    run engine (take k sched) ws s = (Return wk, sk) →
    0 ≤ handle_count (env sk)
    ∧ (handle_count (env sk) = 0 → _keep_open (env sk) = false →
       conn (env sk) = None).
Proof.
  intros Hpos Hinv Hbal k wk sk Hrun.
  apply (run_balanced engine (take k sched) ws wk s sk); try assumption.
  apply balanced_take; assumption.
Qed.

(** X19: without keep-open, closing the one handle that is out closes the
    shared handle, and the next [handle] creates it again: over the two
    calls the engine is asked once to close and once to create, and one
    handle is out again. *)
Theorem idle_environment_reopens (w w' : DuckDBConnectionWrapper)
    (s s1 s2 : St) :
  handle_count (env s) = 1 →
  _keep_open (env s) = false →
  conn (env s) ≠ None →
  DuckDBConnectionWrapper_close engine w s = (Return tt, s1) →
  handle engine s1 = (Return w', s2) →
  conn (env s1) = None
  ∧ db_closed (trace s2) = S (db_closed (trace s))
  ∧ db_created (trace s2) = S (db_created (trace s))
  ∧ handle_count (env s2) = 1
  ∧ conn (env s2) ≠ None.
Proof.
  intros Hcount Hkeep Hconn Hclose Hhandle.
  apply wrapper_close_Return in Hclose as (Hc1 & _ & _ & Hcr1 & Hcl1).
  rewrite Hcount, Hkeep in Hcl1; simpl in Hcl1.
  destruct Hcl1 as [Hnone Hcl1].
  apply handle_Return in Hhandle as (Hc2 & _ & _ & Hcl2 & Hcr2).
  rewrite Hnone in Hcr2; destruct Hcr2 as [Hsome Hcr2].
  destruct (conn (env s)) as [c|]; [|congruence].
  repeat split; try assumption; lia.
Qed.

End Schedules.

Lemma balanced_schedule_invariant_witness :
  let eng := Demo.engine 0 in
  let s := Demo.fresh false [] in
  let sched :=
    [lock_section 0; make_cursor 0; lock_section 1; close_cursor 0; notify 0;
     make_cursor 1; close_cursor 1; notify 1; lock_section 2]%nat in
  let sk := (run eng (take 8 sched) ∅ s).2 in
  0 ≤ handle_count (env sk)
  ∧ (handle_count (env sk) = 0 → _keep_open (env sk) = false →
     conn (env sk) = None).
Proof.
  intros eng s sched sk.
  refine (balanced_schedule_invariant eng sched ∅ s _ _ _ 8
            match (run eng (take 8 sched) ∅ s).1 with
            | Return wk => wk
            | Raise _ => ∅
            end sk _).
  - simpl; lia.
  - reflexivity.
  - reflexivity.
  - reflexivity.
Defined.

Lemma idle_environment_reopens_witness :
  let eng := Demo.engine 0 in
  let w := {| cursor := {| _cursor := 1%nat |} |} in
  let s := (handle eng (Demo.fresh false [])).2 in
  let s1 := (DuckDBConnectionWrapper_close eng w s).2 in
  let s2 := (handle eng s1).2 in
  conn (env s1) = None
  ∧ db_closed (trace s2) = S (db_closed (trace s))
  ∧ db_created (trace s2) = S (db_created (trace s))
  ∧ handle_count (env s2) = 1
  ∧ conn (env s2) ≠ None.
Proof.
  intros eng w s s1 s2.
  apply (idle_environment_reopens eng w
           {| cursor := {| _cursor := 6%nat |} |} s s1 s2);
    try reflexivity.
  discriminate.
Defined.
